(** * lifekline: services/geminiService.ts

    A shallow embedding of [getStemPolarity] and [generateLifeAnalysis]
    together with the ECMAScript built-ins they call, followed by the
    properties of the request loop and of the response normalization.

    JavaScript strings are sequences of UTF-16 code units, Numbers are
    IEEE 754 binary64 values ([spec_float] at precision 53, emax 1024),
    and the asynchronous function is a state-and-exception computation
    over a scripted server: the n-th call of [fetch] receives the n-th
    scripted outcome, and every [fetch] and every timer wait is recorded
    in a trace. *)

From Stdlib Require Import ZArith List Bool String Ascii Lia ZifyBool.
From Stdlib Require Import Floats.SpecFloat.
Import ListNotations.
Open Scope Z_scope.
Set Warnings "-register-all".

(* ================================================================= *)
(** ** Strings *)

(** A JavaScript string: its UTF-16 code units. *)
Definition jsstring := list Z.

(** String literals of the source are written as Rocq strings, which
    hold the UTF-8 bytes of the text; [utf16_of_utf8] turns them into
    the code units the JavaScript engine sees. *)
Fixpoint utf16_of_utf8 (bs : list Z) : jsstring :=
  match bs with
  | [] => []
  | b0 :: r =>
      if b0 <? 128 then b0 :: utf16_of_utf8 r
      else if b0 <? 224 then
        match r with
        | b1 :: r1 =>
            (Z.lor (Z.shiftl (Z.land b0 31) 6) (Z.land b1 63)) :: utf16_of_utf8 r1
        | _ => []
        end
      else if b0 <? 240 then
        match r with
        | b1 :: b2 :: r2 =>
            (Z.lor (Z.shiftl (Z.land b0 15) 12)
               (Z.lor (Z.shiftl (Z.land b1 63) 6) (Z.land b2 63)))
              :: utf16_of_utf8 r2
        | _ => []
        end
      else
        match r with
        | b1 :: b2 :: b3 :: r3 =>
            let cp := Z.lor (Z.shiftl (Z.land b0 7) 18)
                        (Z.lor (Z.shiftl (Z.land b1 63) 12)
                           (Z.lor (Z.shiftl (Z.land b2 63) 6) (Z.land b3 63))) in
            let v := cp - 65536 in
            (55296 + Z.shiftr v 10) :: (56320 + Z.land v 1023) :: utf16_of_utf8 r3
        | _ => []
        end
  end.

Definition lit (s : string) : jsstring :=
  utf16_of_utf8 (map (fun a => Z.of_N (N_of_ascii a)) (list_ascii_of_string s)).

Definition jsstring_eqb (a b : jsstring) : bool :=
  if list_eq_dec Z.eq_dec a b then true else false.

(** WhiteSpace and LineTerminator code points, as [String.prototype.trim]
    and [parseInt] skip them. *)
Definition is_js_whitespace (c : Z) : bool :=
  (c =? 9) || (c =? 10) || (c =? 11) || (c =? 12) || (c =? 13) || (c =? 32)
  || (c =? 160) || (c =? 5760) || ((8192 <=? c) && (c <=? 8202))
  || (c =? 8232) || (c =? 8233) || (c =? 8239) || (c =? 8287)
  || (c =? 12288) || (c =? 65279).

Fixpoint trimStart (s : jsstring) : jsstring :=
  match s with
  | [] => []
  | c :: r => if is_js_whitespace c then trimStart r else s
  end.

Definition trimEnd (s : jsstring) : jsstring := rev (trimStart (rev s)).

Definition trim (s : jsstring) : jsstring := trimEnd (trimStart s).

(** [s.charAt(i)]: the one-unit string at index [i], or the empty string. *)
Definition charAt (s : jsstring) (i : nat) : jsstring :=
  match nth_error s i with
  | Some c => [c]
  | None => []
  end.

Fixpoint starts_with (needle hay : jsstring) : bool :=
  match needle, hay with
  | [], _ => true
  | _ :: _, [] => false
  | a :: n', b :: h' => (a =? b) && starts_with n' h'
  end.

(** [hay.includes(needle)] *)
Fixpoint includes (hay needle : jsstring) : bool :=
  starts_with needle hay
  || match hay with
     | [] => false
     | _ :: r => includes r needle
     end.

(** [arr.includes(x)] on an array of strings. *)
Definition array_includes (arr : list jsstring) (x : jsstring) : bool :=
  existsb (jsstring_eqb x) arr.

(** [s.indexOf(c)] and [s.lastIndexOf(c)] for a one-unit needle; -1 when
    the unit does not occur. *)
Fixpoint indexOf (s : jsstring) (c : Z) : Z :=
  match s with
  | [] => -1
  | d :: r =>
      if d =? c then 0
      else let i := indexOf r c in if i =? -1 then -1 else i + 1
  end.

Fixpoint lastIndexOf (s : jsstring) (c : Z) : Z :=
  match s with
  | [] => -1
  | d :: r =>
      let i := lastIndexOf r c in
      if i =? -1 then (if d =? c then 0 else -1) else i + 1
  end.

(** [s.substring(a, b)]: both ends clamped to [0, length], swapped when
    out of order. *)
Definition substring (s : jsstring) (a b : Z) : jsstring :=
  let len := Z.of_nat (List.length s) in
  let a' := Z.min (Z.max a 0) len in
  let b' := Z.min (Z.max b 0) len in
  let lo := Z.min a' b' in
  let hi := Z.max a' b' in
  firstn (Z.to_nat (hi - lo)) (skipn (Z.to_nat lo) s).

(** *** Global replacement by the empty string

    A pattern here is a sequence of single-unit classes, which covers the
    three regular expressions of the source.  [remove_all pat s] is
    [s.replace(/pat/g, "")]: scanning from the left, every match is
    dropped and the scan resumes right after it. *)
Definition pattern := list (Z -> bool).

Fixpoint matches_at (pat : pattern) (s : jsstring) : bool :=
  match pat, s with
  | [], _ => true
  | _ :: _, [] => false
  | p :: pat', c :: r => p c && matches_at pat' r
  end.

Fixpoint remove_all_aux (pat : pattern) (skip : nat) (s : jsstring) : jsstring :=
  match s with
  | [] => []
  | c :: r =>
      match skip with
      | S k => remove_all_aux pat k r
      | O =>
          if matches_at pat s
          then remove_all_aux pat (Nat.pred (List.length pat)) r
          else c :: remove_all_aux pat O r
      end
  end.

Definition remove_all (pat : pattern) (s : jsstring) : jsstring :=
  remove_all_aux pat O s.

Definition backtick : Z := 96.
Definition is_backtick (c : Z) : bool := c =? backtick.

(** /```json/gi: without the unicode flag, case folding only pairs the
    ASCII letters with their other case. *)
Definition fence_json : pattern :=
  [ is_backtick; is_backtick; is_backtick;
    (fun c => (c =? 106) || (c =? 74));
    (fun c => (c =? 115) || (c =? 83));
    (fun c => (c =? 111) || (c =? 79));
    (fun c => (c =? 110) || (c =? 78)) ].

(** /```/g *)
Definition fence : pattern := [ is_backtick; is_backtick; is_backtick ].

(** [s.replace(/\/+$/, "")]: the run of slashes that ends the string. *)
Definition is_slash (c : Z) : bool := c =? 47.

Fixpoint drop_while (p : Z -> bool) (s : jsstring) : jsstring :=
  match s with
  | [] => []
  | c :: r => if p c then drop_while p r else s
  end.

Definition strip_trailing_slashes (s : jsstring) : jsstring :=
  rev (drop_while is_slash (rev s)).

(** Decimal digits of a non-negative integer, most significant first. *)
Fixpoint decimal_digits (fuel : nat) (n : Z) (acc : jsstring) : jsstring :=
  match fuel with
  | O => acc
  | S f =>
      let acc' := (48 + n mod 10) :: acc in
      if n / 10 =? 0 then acc' else decimal_digits f (n / 10) acc'
  end.

(** Number-to-string conversion of an integer. *)
Definition string_of_int (n : Z) : jsstring :=
  if n <? 0 then 45 :: decimal_digits (Z.to_nat (Z.log2 (- n)) + 1) (- n) []
  else decimal_digits (Z.to_nat (Z.log2 n) + 1) n [].

(* ================================================================= *)
(** ** Numbers *)

(** The Number type: IEEE 754 binary64. *)
Definition Number := spec_float.

Definition prec64 : Z := 53.
Definition emax64 : Z := 1024.

(** The Number nearest to an integer, with the sign of a zero result
    given apart (round to nearest, ties to even). *)
Definition number_of_int (neg : bool) (magnitude : Z) : Number :=
  binary_normalize prec64 emax64 (if neg then - magnitude else magnitude) 0 neg.

Definition num (n : Z) : Number := number_of_int (n <? 0) (Z.abs n).

Definition number_add (x y : Number) : Number := SFadd prec64 emax64 x y.
Definition number_sub (x y : Number) : Number := SFsub prec64 emax64 x y.

(** The Number nearest to [m * 10^e], for the decimal literals of JSON. *)
Definition number_of_decimal (neg : bool) (m e : Z) : Number :=
  if m =? 0 then S754_zero neg
  else if 0 <=? e then number_of_int neg (m * 10 ^ e)
  else SFdiv prec64 emax64
         (S754_finite neg (Z.to_pos m) 0)
         (S754_finite false (Z.to_pos (10 ^ (- e))) 0).

(** ToBoolean of a Number: false for NaN and for both zeros. *)
Definition number_truthy (x : Number) : bool :=
  match x with
  | S754_zero _ => false
  | S754_nan => false
  | _ => true
  end.

(** *** parseInt *)

Definition digit_value (radix c : Z) : option Z :=
  let v := if (48 <=? c) && (c <=? 57) then c - 48
           else if (97 <=? c) && (c <=? 122) then c - 87
           else if (65 <=? c) && (c <=? 90) then c - 55
           else 36 in
  if v <? radix then Some v else None.

(** The mathematical value of the longest prefix of digits in [radix];
    [None] when that prefix is empty. *)
Fixpoint digits_prefix (radix : Z) (s : jsstring) (acc : option Z) : option Z :=
  match s with
  | [] => acc
  | c :: r =>
      match digit_value radix c with
      | Some d =>
          digits_prefix radix r
            (Some (match acc with Some a => a * radix + d | None => d end))
      | None => acc
      end
  end.

(** [parseInt(s)] before the conversion to a Number: the sign and the
    magnitude read, or [None] where parseInt returns NaN. *)
Definition parseInt_math (s : jsstring) : option (bool * Z) :=
  let s0 := trimStart s in
  let '(neg, s1) :=
    match s0 with
    | 45 :: r => (true, r)
    | 43 :: r => (false, r)
    | _ => (false, s0)
    end in
  let '(radix, s2) :=
    match s1 with
    | 48 :: x :: r => if (x =? 120) || (x =? 88) then (16, r) else (10, s1)
    | _ => (10, s1)
    end in
  match digits_prefix radix s2 None with
  | Some n => Some (neg, n)
  | None => None
  end.

Definition parseInt (s : jsstring) : Number :=
  match parseInt_math s with
  | Some (neg, n) => number_of_int neg n
  | None => S754_nan
  end.

(* ================================================================= *)
(** ** Values *)

(** The values [JSON.parse] can produce, and [undefined].  An object keeps
    its members in source order; a later member of the same name
    overrides an earlier one on lookup. *)
Inductive JSValue : Type :=
| JUndefined
| JNull
| JBool (b : bool)
| JNumber (x : Number)
| JString (s : jsstring)
| JArray (elements : list JSValue)
| JObject (members : list (jsstring * JSValue)).

(** ToBoolean *)
Definition truthy (v : JSValue) : bool :=
  match v with
  | JUndefined | JNull => false
  | JBool b => b
  | JNumber x => number_truthy x
  | JString s => match s with [] => false | _ => true end
  | JArray _ | JObject _ => true
  end.

(** [a || b] *)
Definition js_or (a b : JSValue) : JSValue := if truthy a then a else b.

Definition nullish (v : JSValue) : bool :=
  match v with
  | JUndefined | JNull => true
  | _ => false
  end.

Fixpoint lookup_last (key : jsstring) (ms : list (jsstring * JSValue))
  : option JSValue :=
  match ms with
  | [] => None
  | (k, v) :: r =>
      match lookup_last key r with
      | Some w => Some w
      | None => if jsstring_eqb k key then Some v else None
      end
  end.

(** [v.name] on a non-nullish value, for the property names this program
    reads (choices, message, content, chartPoints, bazi, summary, ...):
    none of them is defined on a prototype, so only an object's own
    member answers. *)
Definition get_member (v : JSValue) (name : jsstring) : JSValue :=
  match v with
  | JObject ms =>
      match lookup_last name ms with
      | Some w => w
      | None => JUndefined
      end
  | _ => JUndefined
  end.

(** [v[0]] on a non-nullish value. *)
Definition get_index0 (v : JSValue) : JSValue :=
  match v with
  | JArray xs => match xs with x :: _ => x | [] => JUndefined end
  | JString s => match s with c :: _ => JString [c] | [] => JUndefined end
  | JObject ms =>
      match lookup_last (lit "0") ms with
      | Some w => w
      | None => JUndefined
      end
  | _ => JUndefined
  end.

(** [v?.name] and [v?.[0]] *)
Definition opt_member (v : JSValue) (name : jsstring) : JSValue :=
  if nullish v then JUndefined else get_member v name.

Definition opt_index0 (v : JSValue) : JSValue :=
  if nullish v then JUndefined else get_index0 v.

Definition isArray (v : JSValue) : bool :=
  match v with
  | JArray _ => true
  | _ => false
  end.

(* ================================================================= *)
(** ** JSON.parse *)

Inductive token : Type :=
| TLBrace | TRBrace | TLBracket | TRBracket | TColon | TComma
| TNull | TTrue | TFalse
| TNum (x : Number)
| TStr (s : jsstring).

Definition is_json_ws (c : Z) : bool :=
  (c =? 9) || (c =? 10) || (c =? 13) || (c =? 32).

Definition is_digit (c : Z) : bool := (48 <=? c) && (c <=? 57).

Definition is_hex_digit (c : Z) : bool :=
  is_digit c || ((97 <=? c) && (c <=? 102)) || ((65 <=? c) && (c <=? 70)).

Definition is_number_char (c : Z) : bool :=
  is_digit c || (c =? 43) || (c =? 45) || (c =? 46) || (c =? 101) || (c =? 69).

Fixpoint span (p : Z -> bool) (s : jsstring) : jsstring * jsstring :=
  match s with
  | [] => ([], [])
  | c :: r =>
      if p c then let '(a, b) := span p r in (c :: a, b) else ([], s)
  end.

Definition digits_value (ds : jsstring) : Z :=
  fold_left (fun acc d => acc * 10 + (d - 48)) ds 0.

(** A number literal: an optional minus sign; then a single 0, or a
    non-zero digit and any digits; then optionally a point and one or more
    digits; then optionally e or E, an optional sign and one or more
    digits. *)
Definition parse_number (cs : jsstring) : option Number :=
  let '(neg, cs1) :=
    match cs with
    | 45 :: r => (true, r)
    | _ => (false, cs)
    end in
  let int_part :=
    match cs1 with
    | [] => None
    | d :: r =>
        if d =? 48 then Some ([d], r)
        else if is_digit d then Some (span is_digit cs1)
        else None
    end in
  match int_part with
  | None => None
  | Some (ip, r1) =>
      let frac_part :=
        match r1 with
        | 46 :: r =>
            let '(fd, r') := span is_digit r in
            match fd with [] => None | _ => Some (fd, r') end
        | _ => Some ([], r1)
        end in
      match frac_part with
      | None => None
      | Some (fp, r2) =>
          let exp_part :=
            match r2 with
            | [] => Some 0
            | e :: r =>
                if (e =? 101) || (e =? 69) then
                  let '(eneg, r') :=
                    match r with
                    | 45 :: t => (true, t)
                    | 43 :: t => (false, t)
                    | _ => (false, r)
                    end in
                  let '(ed, rest) := span is_digit r' in
                  match ed, rest with
                  | _ :: _, [] =>
                      Some (if eneg then - digits_value ed else digits_value ed)
                  | _, _ => None
                  end
                else None
            end in
          match exp_part with
          | None => None
          | Some ex =>
              Some (number_of_decimal neg (digits_value (ip ++ fp))
                      (ex - Z.of_nat (List.length fp)))
          end
      end
  end.

Definition hex_value (c : Z) : Z :=
  if is_digit c then c - 48
  else if (97 <=? c) && (c <=? 102) then c - 87
  else c - 55.

Definition simple_escape (c : Z) : option Z :=
  if c =? 34 then Some 34
  else if c =? 92 then Some 92
  else if c =? 47 then Some 47
  else if c =? 98 then Some 8
  else if c =? 102 then Some 12
  else if c =? 110 then Some 10
  else if c =? 114 then Some 13
  else if c =? 116 then Some 9
  else None.

(** The body of a string literal, after its opening quote: the string
    value and the text that follows the closing quote. *)
Fixpoint lex_string (s : jsstring) : option (jsstring * jsstring) :=
  match s with
  | [] => None
  | c :: r =>
      if c =? 34 then Some ([], r)
      else if c =? 92 then
        match r with
        | [] => None
        | e :: r1 =>
            if e =? 117 then
              match r1 with
              | h1 :: h2 :: h3 :: h4 :: r2 =>
                  if is_hex_digit h1 && is_hex_digit h2
                     && is_hex_digit h3 && is_hex_digit h4
                  then
                    match lex_string r2 with
                    | Some (str, rest) =>
                        Some (((hex_value h1 * 16 + hex_value h2) * 16
                               + hex_value h3) * 16 + hex_value h4 :: str, rest)
                    | None => None
                    end
                  else None
              | _ => None
              end
            else
              match simple_escape e with
              | Some u =>
                  match lex_string r1 with
                  | Some (str, rest) => Some (u :: str, rest)
                  | None => None
                  end
              | None => None
              end
        end
      else if c <? 32 then None
      else
        match lex_string r with
        | Some (str, rest) => Some (c :: str, rest)
        | None => None
        end
  end.

(** What follows [pre] in [s], when [s] starts with it: the rest of the
    keywords true, false and null after their first letter. *)
Fixpoint after_prefix (pre s : jsstring) : option jsstring :=
  match pre with
  | [] => Some s
  | a :: pre' =>
      match s with
      | b :: s' => if a =? b then after_prefix pre' s' else None
      | [] => None
      end
  end.

Definition push_token (t : token) (ts : option (list token))
  : option (list token) :=
  match ts with
  | Some l => Some (t :: l)
  | None => None
  end.

Fixpoint lex (fuel : nat) (s : jsstring) : option (list token) :=
  match s with
  | [] => Some []
  | c :: r =>
      match fuel with
      | O => None
      | S f =>
          if is_json_ws c then lex f r
          else if c =? 123 then push_token TLBrace (lex f r)
          else if c =? 125 then push_token TRBrace (lex f r)
          else if c =? 91 then push_token TLBracket (lex f r)
          else if c =? 93 then push_token TRBracket (lex f r)
          else if c =? 58 then push_token TColon (lex f r)
          else if c =? 44 then push_token TComma (lex f r)
          else if c =? 34 then
            match lex_string r with
            | Some (str, rest) => push_token (TStr str) (lex f rest)
            | None => None
            end
          else if c =? 116 then
            match after_prefix [114; 117; 101] r with
            | Some rest => push_token TTrue (lex f rest)
            | None => None
            end
          else if c =? 102 then
            match after_prefix [97; 108; 115; 101] r with
            | Some rest => push_token TFalse (lex f rest)
            | None => None
            end
          else if c =? 110 then
            match after_prefix [117; 108; 108] r with
            | Some rest => push_token TNull (lex f rest)
            | None => None
            end
          else if is_number_char c then
            let '(lexeme, rest) := span is_number_char s in
            match parse_number lexeme with
            | Some x => push_token (TNum x) (lex f rest)
            | None => None
            end
          else None
      end
  end.

(** Recursive descent over the tokens.  [parse_elements] reads the rest of
    an array after its opening bracket, [parse_members] the rest of an
    object after its opening brace; both expect at least one item. *)
Fixpoint parse_value (fuel : nat) (ts : list token)
  : option (JSValue * list token) :=
  match fuel with
  | O => None
  | S f =>
      match ts with
      | TNull :: r => Some (JNull, r)
      | TTrue :: r => Some (JBool true, r)
      | TFalse :: r => Some (JBool false, r)
      | TNum x :: r => Some (JNumber x, r)
      | TStr s :: r => Some (JString s, r)
      | TLBracket :: TRBracket :: r => Some (JArray [], r)
      | TLBracket :: r =>
          match parse_elements f r with
          | Some (xs, r') => Some (JArray xs, r')
          | None => None
          end
      | TLBrace :: TRBrace :: r => Some (JObject [], r)
      | TLBrace :: r =>
          match parse_members f r with
          | Some (ms, r') => Some (JObject ms, r')
          | None => None
          end
      | _ => None
      end
  end
with parse_elements (fuel : nat) (ts : list token)
  : option (list JSValue * list token) :=
  match fuel with
  | O => None
  | S f =>
      match parse_value f ts with
      | Some (v, TComma :: r) =>
          match parse_elements f r with
          | Some (vs, r') => Some (v :: vs, r')
          | None => None
          end
      | Some (v, TRBracket :: r) => Some ([v], r)
      | _ => None
      end
  end
with parse_members (fuel : nat) (ts : list token)
  : option (list (jsstring * JSValue) * list token) :=
  match fuel with
  | O => None
  | S f =>
      match ts with
      | TStr k :: TColon :: r =>
          match parse_value f r with
          | Some (v, TComma :: r') =>
              match parse_members f r' with
              | Some (ms, r'') => Some ((k, v) :: ms, r'')
              | None => None
              end
          | Some (v, TRBrace :: r') => Some ([(k, v)], r')
          | _ => None
          end
      | _ => None
      end
  end.

(** [JSON.parse(text)]: [None] stands for the SyntaxError. *)
Definition JSON_parse (text : jsstring) : option JSValue :=
  match lex (List.length text) text with
  | Some ts =>
      match parse_value (2 * List.length ts + 2) ts with
      | Some (v, []) => Some v
      | _ => None
      end
  | None => None
  end.

(* ================================================================= *)
(** ** Data model *)

Inductive Polarity : Type := YANG | YIN.

(** Modelled from the spec: the [Gender] enumeration and the [UserInput]
    record are declared in ../types, which is not part of the sources.
    The spec lists the fields; the ones the code guards with a truthiness
    test before use (API key, base URL, model name, name) may be absent,
    the others are strings, as every use in the code takes them. *)
Inductive Gender : Type := MALE | FEMALE.

Record UserInput : Type := {
  name : option jsstring;
  gender : Gender;
  birthYear : jsstring;
  yearPillar : jsstring;
  monthPillar : jsstring;
  dayPillar : jsstring;
  hourPillar : jsstring;
  startAge : jsstring;
  firstDaYun : jsstring;
  modelName : option jsstring;
  apiBaseUrl : option jsstring;
  apiKey : option jsstring
}.

Definition gender_eqb (a b : Gender) : bool :=
  match a, b with
  | MALE, MALE | FEMALE, FEMALE => true
  | _, _ => false
  end.

(** The analysis part of [LifeDestinyResult]: each field holds whatever
    value the model's reply carried, or the default. *)
Record Analysis : Type := {
  bazi : JSValue;
  summary : JSValue;
  summaryScore : JSValue;
  industry : JSValue;
  industryScore : JSValue;
  wealth : JSValue;
  wealthScore : JSValue;
  marriage : JSValue;
  marriageScore : JSValue;
  health : JSValue;
  healthScore : JSValue;
  family : JSValue;
  familyScore : JSValue
}.

Record LifeDestinyResult : Type := {
  chartData : JSValue;
  analysis : Analysis
}.

(** The values substituted into the template literal [userPrompt], in the
    order of their first occurrence; the fixed text around them is the
    same for every call and is left out. *)
Record UserPrompt : Type := {
  p_genderStr : jsstring;
  p_name : jsstring;
  p_birthYear : jsstring;
  p_yearPillar : jsstring;
  p_polarity : jsstring;
  p_monthPillar : jsstring;
  p_dayPillar : jsstring;
  p_hourPillar : jsstring;
  p_startAge : jsstring;
  p_firstDaYun : jsstring;
  p_daYunDirectionStr : jsstring;
  p_directionExample : jsstring;
  p_childhoodEnd : Number;
  p_startAgeInt : Number;
  p_step1End : Number;
  p_step2Start : Number;
  p_step2End : Number;
  p_step3Start : Number;
  p_step3End : Number
}.

(** The request handed to [fetch]: a POST whose method, content type,
    system instruction, response format and temperature are constants. *)
Record Request : Type := {
  url : jsstring;
  authorization : jsstring;
  model : jsstring;
  prompt : UserPrompt
}.

Record Response : Type := {
  status : Z;
  body : jsstring
}.

(** [response.ok] *)
Definition ok (r : Response) : bool := (200 <=? status r) && (status r <=? 299).

(** What one call of [fetch] can do: reject with an error carrying a
    message, or resolve to a response. *)
Inductive FetchOutcome : Type :=
| Rejected (message : jsstring)
| Responded (r : Response).

(** Thrown values: [new Error(message)] of the source, the rejection of
    [fetch], and the TypeError and SyntaxError the engine raises. *)
Inductive exn : Type :=
| Error (message : jsstring)
| FetchFailure (message : jsstring)
| TypeError
| SyntaxError.

(** [err.message]; the program never reads it on an engine error. *)
Definition message_of (e : exn) : jsstring :=
  match e with
  | Error m | FetchFailure m => m
  | TypeError | SyntaxError => []
  end.

Inductive Outcome (A : Type) : Type :=
| Return (a : A)
| Throw (e : exn)
| OutOfFuel.
Arguments Return {A} a.
Arguments Throw {A} e.
Arguments OutOfFuel {A}.

(** Observable effects, in the order they happen. *)
Inductive Event : Type :=
| EvFetch (req : Request)
| EvWait (ms : Z).

(** The state the request loop runs in: how many calls [fetch] has
    received, the trace, and the local variables [attempt] and
    [response]. *)
Record Machine : Type := {
  calls : nat;
  trace : list Event;
  attempt : Z;
  response : option Response
}.

Definition M (A : Type) : Type := Machine -> Outcome A * Machine.

Definition ret {A} (a : A) : M A := fun m => (Return a, m).
Definition throw {A} (e : exn) : M A := fun m => (Throw e, m).
Definition out_of_fuel {A} : M A := fun m => (OutOfFuel, m).

Definition bind {A B} (c : M A) (k : A -> M B) : M B :=
  fun m =>
    match c m with
    | (Return a, m') => k a m'
    | (Throw e, m') => (Throw e, m')
    | (OutOfFuel, m') => (OutOfFuel, m')
    end.

(** [try { c } catch (err) { h err }] *)
Definition try_catch {A} (c : M A) (h : exn -> M A) : M A :=
  fun m =>
    match c m with
    | (Throw e, m') => h e m'
    | r => r
    end.

Notation "x <- c ;; k" := (bind c (fun x => k))
  (at level 61, c at next level, right associativity).
Notation "c ;;; k" := (bind c (fun _ => k))
  (at level 61, right associativity).

Definition lift {A} (o : Outcome A) : M A := fun m => (o, m).

Definition fetch (server : nat -> FetchOutcome) (req : Request) : M Response :=
  fun m =>
    let m' := {| calls := S (calls m);
                 trace := trace m ++ [EvFetch req];
                 attempt := attempt m;
                 response := response m |} in
    match server (calls m) with
    | Rejected msg => (Throw (FetchFailure msg), m')
    | Responded r => (Return r, m')
    end.

(** [await new Promise(resolve => setTimeout(resolve, ms))] *)
Definition wait (ms : Z) : M unit :=
  fun m =>
    (Return tt, {| calls := calls m;
                   trace := trace m ++ [EvWait ms];
                   attempt := attempt m;
                   response := response m |}).

Definition get_attempt : M Z := fun m => (Return (attempt m), m).

(** [attempt++] *)
Definition incr_attempt : M unit :=
  fun m =>
    (Return tt, {| calls := calls m;
                   trace := trace m;
                   attempt := attempt m + 1;
                   response := response m |}).

Definition set_response (r : Response) : M unit :=
  fun m =>
    (Return tt, {| calls := calls m;
                   trace := trace m;
                   attempt := attempt m;
                   response := Some r |}).

Definition get_response : M (option Response) :=
  fun m => (Return (response m), m).

(* ================================================================= *)
(** ** services/geminiService.ts *)

Definition yangStems : list jsstring :=
  [lit "甲"; lit "丙"; lit "戊"; lit "庚"; lit "壬"].
Definition yinStems : list jsstring :=
  [lit "乙"; lit "丁"; lit "己"; lit "辛"; lit "癸"].

(** ToBoolean of a string *)
Definition str_truthy (s : jsstring) : bool :=
  match s with
  | [] => false
  | _ :: _ => true
  end.

Definition getStemPolarity (pillar : jsstring) : Polarity :=
  if negb (str_truthy pillar) then YANG
  else
    let firstChar := charAt (trim pillar) 0 in
    if array_includes yangStems firstChar then YANG
    else if array_includes yinStems firstChar then YIN
    else YANG.

Definition polarity_eqb (a b : Polarity) : bool :=
  match a, b with
  | YANG, YANG | YIN, YIN => true
  | _, _ => false
  end.

(** [!s || !s.trim()] on a string that is present *)
Definition blank (s : jsstring) : bool :=
  negb (str_truthy s) || negb (str_truthy (trim s)).

Definition cleanBaseUrl (apiBaseUrl : jsstring) : jsstring :=
  strip_trailing_slashes apiBaseUrl.

Definition targetModel (modelName : option jsstring) : jsstring :=
  match modelName with
  | Some m =>
      if str_truthy m && str_truthy (trim m) then trim m
      else lit "gemini-3-pro-preview"
  | None => lit "gemini-3-pro-preview"
  end.

Definition genderStr (input : UserInput) : jsstring :=
  if gender_eqb (gender input) MALE then lit "男 (乾造)" else lit "女 (坤造)".

(** [parseInt(input.startAge) || 1] *)
Definition startAgeInt (input : UserInput) : Number :=
  let parsed := parseInt (startAge input) in
  if number_truthy parsed then parsed else num 1.

Definition yearStemPolarity (input : UserInput) : Polarity :=
  getStemPolarity (yearPillar input).

Definition isForward (input : UserInput) : bool :=
  if gender_eqb (gender input) MALE
  then polarity_eqb (yearStemPolarity input) YANG
  else polarity_eqb (yearStemPolarity input) YIN.

Definition daYunDirectionStr (input : UserInput) : jsstring :=
  if isForward input then lit "顺行 (Forward)" else lit "逆行 (Backward)".

Definition directionExample (input : UserInput) : jsstring :=
  if isForward input
  then lit "例如：第一步是【戊申】，第二步则是【己酉】（顺排）"
  else lit "例如：第一步是【戊申】，第二步则是【丁未】（逆排）".

Definition userPrompt (input : UserInput) : UserPrompt :=
  {| p_genderStr := genderStr input;
     p_name := match name input with
               | Some n => if str_truthy n then n else lit "未提供"
               | None => lit "未提供"
               end;
     p_birthYear := birthYear input;
     p_yearPillar := yearPillar input;
     p_polarity := if polarity_eqb (yearStemPolarity input) YANG
                   then lit "阳" else lit "阴";
     p_monthPillar := monthPillar input;
     p_dayPillar := dayPillar input;
     p_hourPillar := hourPillar input;
     p_startAge := startAge input;
     p_firstDaYun := firstDaYun input;
     p_daYunDirectionStr := daYunDirectionStr input;
     p_directionExample := directionExample input;
     p_childhoodEnd := number_sub (startAgeInt input) (num 1);
     p_startAgeInt := startAgeInt input;
     p_step1End := number_add (startAgeInt input) (num 9);
     p_step2Start := number_add (startAgeInt input) (num 10);
     p_step2End := number_add (startAgeInt input) (num 19);
     p_step3Start := number_add (startAgeInt input) (num 20);
     p_step3End := number_add (startAgeInt input) (num 29) |}.

Definition request_of (input : UserInput) (apiKey apiBaseUrl : jsstring)
  : Request :=
  {| url := cleanBaseUrl apiBaseUrl ++ lit "/chat/completions";
     authorization := lit "Bearer " ++ apiKey;
     model := targetModel (modelName input);
     prompt := userPrompt input |}.

Definition retries : Z := 3.

(** *** The messages of the errors thrown *)

Definition apiKeyMessage : jsstring := lit "请在表单中填写有效的 API Key".
Definition apiBaseUrlMessage : jsstring := lit "请在表单中填写有效的 API Base URL".

Definition serviceUnavailableMessage (errText : jsstring) : jsstring :=
  lit "API 请求失败 (503 Service Unavailable) - 已重试 "
  ++ string_of_int retries ++ lit " 次: " ++ errText.

Definition httpErrorMessage (code : Z) (errText : jsstring) : jsstring :=
  lit "API 请求失败: " ++ string_of_int code ++ lit " - " ++ errText.

Definition unknownMessage : jsstring := lit "API 请求发生未知错误".
Definition emptyContentMessage : jsstring := lit "模型未返回任何内容。".

Definition malformedMessage (content : jsstring) : jsstring :=
  lit "模型返回的数据格式无法解析。请重试。" ++ [10] ++ lit "原始数据片段: "
  ++ substring content 0 50 ++ lit "...".

Definition missingFieldMessage : jsstring :=
  lit "模型返回的数据缺少关键字段 chartPoints。".

(** *** The request loop *)

(** How one pass through the body of the [while] ends, when it does not
    throw: at [break], or back at the loop test. *)
Inductive Signal : Type := Break | Continue.

(** The [try] block of the loop body. *)
Definition attempt_try (server : nat -> FetchOutcome) (req : Request)
  : M Signal :=
  r <- fetch server req ;;
  set_response r ;;;
  if status r =? 503 then
    incr_attempt ;;;
    a <- get_attempt ;;
    if retries <=? a
    then throw (Error (serviceUnavailableMessage (body r)))
    else wait (2000 * a) ;;; ret Continue
  else if negb (ok r)
  then throw (Error (httpErrorMessage (status r) (body r)))
  else ret Break.

(** The [catch (err)] block of the loop body. *)
Definition attempt_catch (err : exn) : M Signal :=
  if includes (message_of err) (lit "503") then throw err
  else
    incr_attempt ;;;
    a <- get_attempt ;;
    if retries <=? a then throw err
    else wait 2000 ;;; ret Continue.

(** [while (attempt < retries) { try ... catch ... }] *)
Fixpoint request_loop (fuel : nat) (server : nat -> FetchOutcome)
  (req : Request) : M unit :=
  match fuel with
  | O => out_of_fuel
  | S f =>
      a <- get_attempt ;;
      if a <? retries then
        sig <- try_catch (attempt_try server req) attempt_catch ;;
        match sig with
        | Break => ret tt
        | Continue => request_loop f server req
        end
      else ret tt
  end.

(** *** Response normalization *)

Definition obind {A B} (o : Outcome A) (k : A -> Outcome B) : Outcome B :=
  match o with
  | Return a => k a
  | Throw e => Throw e
  | OutOfFuel => OutOfFuel
  end.

(** [jsonResult.choices?.[0]?.message?.content] *)
Definition extract_content (jsonResult : JSValue) : Outcome JSValue :=
  if nullish jsonResult then Throw TypeError
  else
    Return (opt_member
              (opt_member
                 (opt_index0 (get_member jsonResult (lit "choices")))
                 (lit "message"))
              (lit "content")).

(** Steps 1 and 2 of the parsing block: the fence markers removed, then
    the text cut to the outermost braces. *)
Definition strip_fences (content : jsstring) : jsstring :=
  remove_all fence (remove_all fence_json content).

Definition normalize_content (content : jsstring) : jsstring :=
  let cleanContent := strip_fences content in
  let firstBrace := indexOf cleanContent 123 in
  let lastBrace := lastIndexOf cleanContent 125 in
  if negb (firstBrace =? -1) && negb (lastBrace =? -1)
     && (firstBrace <? lastBrace)
  then substring cleanContent firstBrace (lastBrace + 1)
  else cleanContent.

(** The inner [try]/[catch] around the parsing.  A truthy content that is
    not a string has no [replace] method, and in the handler no
    [substring] either: the TypeError of the handler is what leaves. *)
Definition parse_content (content : JSValue) : Outcome JSValue :=
  match content with
  | JString s =>
      match JSON_parse (normalize_content s) with
      | Some data => Return data
      | None => Throw (Error (malformedMessage s))
      end
  | _ => Throw TypeError
  end.

Definition build_result (data : JSValue) : Outcome LifeDestinyResult :=
  if negb (truthy (opt_member data (lit "chartPoints"))) then
    Throw (Error missingFieldMessage)
  else if negb (isArray (get_member data (lit "chartPoints"))) then
    Throw (Error missingFieldMessage)
  else
    Return
      {| chartData := get_member data (lit "chartPoints");
         analysis :=
           {| bazi := js_or (get_member data (lit "bazi")) (JArray []);
              summary := js_or (get_member data (lit "summary"))
                           (JString (lit "无摘要"));
              summaryScore := js_or (get_member data (lit "summaryScore"))
                                (JNumber (num 5));
              industry := js_or (get_member data (lit "industry"))
                            (JString (lit "无"));
              industryScore := js_or (get_member data (lit "industryScore"))
                                 (JNumber (num 5));
              wealth := js_or (get_member data (lit "wealth"))
                          (JString (lit "无"));
              wealthScore := js_or (get_member data (lit "wealthScore"))
                               (JNumber (num 5));
              marriage := js_or (get_member data (lit "marriage"))
                            (JString (lit "无"));
              marriageScore := js_or (get_member data (lit "marriageScore"))
                                 (JNumber (num 5));
              health := js_or (get_member data (lit "health"))
                          (JString (lit "无"));
              healthScore := js_or (get_member data (lit "healthScore"))
                               (JNumber (num 5));
              family := js_or (get_member data (lit "family"))
                          (JString (lit "无"));
              familyScore := js_or (get_member data (lit "familyScore"))
                               (JNumber (num 5)) |} |}.

(** [response.json()] and the content of the first choice, with the
    test that it is truthy. *)
Definition response_content (r : Response) : Outcome JSValue :=
  match JSON_parse (body r) with
  | None => Throw SyntaxError
  | Some jsonResult =>
      obind (extract_content jsonResult) (fun content =>
        if negb (truthy content) then Throw (Error emptyContentMessage)
        else Return content)
  end.

(** The object [data] that reaches the validation of chartPoints. *)
Definition response_data (r : Response) : Outcome JSValue :=
  obind (response_content r) parse_content.

(** Everything after the loop, for the response it left. *)
Definition handle_response (r : Response) : Outcome LifeDestinyResult :=
  obind (response_data r) build_result.

Definition initial : Machine :=
  {| calls := O; trace := []; attempt := 0; response := None |}.

(** The part of the function inside the outer [try], whose handler logs
    and rethrows. *)
Definition run_request (server : nat -> FetchOutcome) (req : Request)
  : M LifeDestinyResult :=
  request_loop (S (Z.to_nat retries)) server req ;;;
  resp <- get_response ;;
  match resp with
  | None => throw (Error unknownMessage)
  | Some r => lift (handle_response r)
  end.

Definition generateLifeAnalysis (server : nat -> FetchOutcome)
  (input : UserInput) : Outcome LifeDestinyResult * Machine :=
  match apiKey input with
  | None => throw (Error apiKeyMessage) initial
  | Some key =>
      if blank key then throw (Error apiKeyMessage) initial
      else
        match apiBaseUrl input with
        | None => throw (Error apiBaseUrlMessage) initial
        | Some base =>
            if blank base then throw (Error apiBaseUrlMessage) initial
            else run_request server (request_of input key base) initial
        end
  end.

(** *** The error taxonomy

    The source throws plain [Error] objects; the kinds the specification
    names are told apart by the message. *)

Definition ConfigurationError (e : exn) : Prop :=
  e = Error apiKeyMessage \/ e = Error apiBaseUrlMessage.

Definition ServiceUnavailable (e : exn) : Prop :=
  exists errText, e = Error (serviceUnavailableMessage errText).

Definition HttpError (code : Z) (errText : jsstring) (e : exn) : Prop :=
  e = Error (httpErrorMessage code errText).

Definition MissingFieldError (e : exn) : Prop :=
  e = Error missingFieldMessage.

(** A credential is unusable when it is absent or holds white space
    only (the empty string included). *)
Definition missing_or_blank (s : option jsstring) : bool :=
  match s with
  | None => true
  | Some t => forallb is_js_whitespace t
  end.

(** The request loop of a call ends at [break], leaving machine [m] and
    the response [r] in the variable [response]. *)
Definition accepted (server : nat -> FetchOutcome) (input : UserInput)
  (m : Machine) (r : Response) : Prop :=
  exists key base,
    apiKey input = Some key /\ blank key = false /\
    apiBaseUrl input = Some base /\ blank base = false /\
    request_loop (S (Z.to_nat retries)) server (request_of input key base)
      initial = (Return tt, m) /\
    response m = Some r.

Definition fetches (m : Machine) : list Request :=
  flat_map (fun e => match e with EvFetch q => [q] | EvWait _ => [] end)
    (trace m).

Definition waits (m : Machine) : list Z :=
  flat_map (fun e => match e with EvWait ms => [ms] | EvFetch _ => [] end)
    (trace m).

(** Text between double quotes, for writing JSON. *)
Definition quoted (s : jsstring) : jsstring := [34] ++ s ++ [34].

(* ================================================================= *)
(** ** Sample data *)

(** [JSON.stringify] of a string whose units are plain, quotes,
    backslashes or line feeds. *)
Fixpoint json_escape (s : jsstring) : jsstring :=
  match s with
  | [] => []
  | c :: r =>
      if c =? 34 then 92 :: 34 :: json_escape r
      else if c =? 92 then 92 :: 92 :: json_escape r
      else if c =? 10 then 92 :: 110 :: json_escape r
      else c :: json_escape r
  end.

(** The reply of a chat-completion endpoint whose first choice carries
    [content]. *)
Definition envelope_of (content : jsstring) : jsstring :=
  lit "{" ++ quoted (lit "choices") ++ lit ":[{" ++ quoted (lit "message")
  ++ lit ":{" ++ quoted (lit "content") ++ lit ":"
  ++ quoted (json_escape content) ++ lit "}}]}".

Definition fenced_content : jsstring :=
  lit "```json" ++ [10] ++ lit "{" ++ quoted (lit "chartPoints")
  ++ lit ":[1,2,3]}" ++ [10] ++ lit "```".

Definition sample_input : UserInput :=
  {| name := None;
     gender := MALE;
     birthYear := lit "1990";
     yearPillar := lit "甲子";
     monthPillar := lit "丙寅";
     dayPillar := lit "戊辰";
     hourPillar := lit "庚申";
     startAge := lit "8";
     firstDaYun := lit "戊申";
     modelName := None;
     apiBaseUrl := Some (lit "https://x/");
     apiKey := Some (lit "secret") |}.

Definition sample_request : Request :=
  request_of sample_input (lit "secret") (lit "https://x/").

Definition busy : Response := {| status := 503; body := lit "overloaded" |}.
Definition forbidden : Response := {| status := 403; body := lit "Forbidden" |}.
Definition good : Response :=
  {| status := 200; body := envelope_of fenced_content |}.

Definition always (r : Response) : nat -> FetchOutcome :=
  fun _ => Responded r.

Definition script (rs : list Response) (last : Response) : nat -> FetchOutcome :=
  fun n => Responded (nth n rs last).

(** What the call returns for [good]: the three chart points, and every
    analysis field at its default. *)
Definition sample_result : LifeDestinyResult :=
  {| chartData := JArray [JNumber (num 1); JNumber (num 2); JNumber (num 3)];
     analysis :=
       {| bazi := JArray [];
          summary := JString (lit "无摘要");
          summaryScore := JNumber (num 5);
          industry := JString (lit "无");
          industryScore := JNumber (num 5);
          wealth := JString (lit "无");
          wealthScore := JNumber (num 5);
          marriage := JString (lit "无");
          marriageScore := JNumber (num 5);
          health := JString (lit "无");
          healthScore := JNumber (num 5);
          family := JString (lit "无");
          familyScore := JNumber (num 5) |} |}.

(** A reply whose content has no chartPoints, and one whose content has a
    score of 0 and an empty summary. *)
Definition lacking : Response :=
  {| status := 200;
     body := envelope_of (lit "{" ++ quoted (lit "bazi") ++ lit ":[]}") |}.

Definition zeroed : Response :=
  {| status := 200;
     body := envelope_of
               (lit "{" ++ quoted (lit "chartPoints") ++ lit ":[],"
                ++ quoted (lit "summaryScore") ++ lit ":0,"
                ++ quoted (lit "summary") ++ lit ":" ++ quoted [] ++ lit "}") |}.

(** The machine a call is left in once the loop is over. *)
Definition after_loop (server : nat -> FetchOutcome) (input : UserInput)
  (key base : jsstring) : Machine :=
  snd (request_loop (S (Z.to_nat retries)) server (request_of input key base)
         initial).

(** The analysis fields by kind: the member of the reply each one is read
    from, its default, and its place in the result. *)
Definition score_fields : list (jsstring * (Analysis -> JSValue)) :=
  [ (lit "summaryScore", summaryScore);
    (lit "industryScore", industryScore);
    (lit "wealthScore", wealthScore);
    (lit "marriageScore", marriageScore);
    (lit "healthScore", healthScore);
    (lit "familyScore", familyScore) ].

Definition text_fields : list (jsstring * jsstring * (Analysis -> JSValue)) :=
  [ (lit "summary", lit "无摘要", summary);
    (lit "industry", lit "无", industry);
    (lit "wealth", lit "无", wealth);
    (lit "marriage", lit "无", marriage);
    (lit "health", lit "无", health);
    (lit "family", lit "无", family) ].

(** The first unit of a pillar as written, and after trimming. *)
Definition in_stems (c : jsstring) : bool :=
  array_includes yangStems c || array_includes yinStems c.

Definition with_pillar (g : Gender) (pillar : jsstring) : UserInput :=
  {| name := None; gender := g; birthYear := []; yearPillar := pillar;
     monthPillar := []; dayPillar := []; hourPillar := []; startAge := [];
     firstDaYun := []; modelName := None; apiBaseUrl := None; apiKey := None |}.

Definition with_startAge (age : jsstring) : UserInput :=
  {| name := None; gender := MALE; birthYear := []; yearPillar := [];
     monthPillar := []; dayPillar := []; hourPillar := []; startAge := age;
     firstDaYun := []; modelName := None; apiBaseUrl := None; apiKey := None |}.

(* ================================================================= *)
(** ** Notions used in the statements *)

(** One pass through the body of the loop: the [try] block under its
    handler. *)
Definition pass (server : nat -> FetchOutcome) (req : Request) : M Signal :=
  try_catch (attempt_try server req) attempt_catch.

(** The sign bit of a Number that is not NaN. *)
Definition is_negative (x : Number) : bool :=
  match x with
  | S754_zero s | S754_infinity s | S754_finite s _ _ => s
  | S754_nan => false
  end.

(** A unit that stands for itself inside a JSON string literal. *)
Definition plain (c : Z) : bool :=
  negb (c =? 34) && negb (c =? 92) && negb (c <? 32).

(** What the two fence patterns of the source have in common: they start
    with a backtick and only accept plain units. *)
Definition fence_like (pat : pattern) : Prop :=
  (exists p pat', pat = p :: pat' /\ forall c, p c = true -> c = backtick)
  /\ (forall p, In p pat -> forall c, p c = true -> plain c = true).

(** Tokens that differ at most in the value of a string. *)
Inductive token_sim : token -> token -> Prop :=
| sim_str (s s' : jsstring) : token_sim (TStr s) (TStr s')
| sim_same (t : token) : token_sim t t.

(** Tokens and values with every string blanked: the structure of a JSON
    text, which is all the parser looks at. *)
Definition shape (t : token) : token :=
  match t with
  | TStr _ => TStr []
  | _ => t
  end.

Fixpoint vshape (v : JSValue) : JSValue :=
  match v with
  | JString _ => JString []
  | JArray xs => JArray (map vshape xs)
  | JObject ms => JObject (map (fun kv => ([], vshape (snd kv))) ms)
  | _ => v
  end.

Definition shaped {A} (f : A -> A) (o : option (A * list token))
  : option (A * list token) :=
  match o with
  | Some (a, rest) => Some (f a, map shape rest)
  | None => None
  end.

Fixpoint leading_backticks (s : jsstring) : nat :=
  match s with
  | c :: r => if is_backtick c then S (leading_backticks r) else O
  | [] => O
  end.

(* ================================================================= *)
(** ** The shape of a call's trace *)

(** A trace of attempts: a request, then for each wait in [ws] that wait
    and one more request. *)
Definition attempts_trace (req : Request) (ws : list Z) : list Event :=
  flat_map (fun w => [EvFetch req; EvWait w]) ws ++ [EvFetch req].

(** The waits a call can go through, first to last. *)
Definition wait_schedules : list (list Z) :=
  [ []; [2000]; [2000; 2000]; [2000; 4000] ].

(** Waits that follow the attempts numbered [k], [k + 1], ...: each is the
    fixed 2000 ms of the handler or 2000 ms times the attempt number. *)
Fixpoint waits_from (k : Z) (ws : list Z) : Prop :=
  match ws with
  | [] => True
  | w :: r => (w = 2000 \/ w = 2000 * k) /\ waits_from (k + 1) r
  end.

(** The errors that can leave the request loop. *)
Definition loop_error (e : exn) : Prop :=
  (exists msg, e = FetchFailure msg)
  \/ (exists errText, e = Error (serviceUnavailableMessage errText))
  \/ (exists code errText, e = Error (httpErrorMessage code errText)).

(** The content of the first choice of a reply that is not null. *)
Definition content_of (jsonResult : JSValue) : JSValue :=
  opt_member
    (opt_member (opt_index0 (get_member jsonResult (lit "choices")))
       (lit "message"))
    (lit "content").

(** *** More sample data *)

Definition outcomes (os : list FetchOutcome) (last : FetchOutcome)
  : nat -> FetchOutcome :=
  fun n => nth n os last.

Definition offline : FetchOutcome := Rejected (lit "Failed to fetch").
Definition proxy_down : FetchOutcome :=
  Rejected (lit "proxy answered 503").
Definition relayed : Response :=
  {| status := 500; body := lit "upstream returned 503" |}.
Definition hollow : Response := {| status := 200; body := lit "{}" |}.
Definition garbled : Response :=
  {| status := 200; body := envelope_of (lit "sorry, no chart today") |}.
Definition numeric : Response :=
  {| status := 200;
     body := lit "{" ++ quoted (lit "choices") ++ lit ":[{"
             ++ quoted (lit "message") ++ lit ":{" ++ quoted (lit "content")
             ++ lit ":5}}]}" |}.

Definition with_model (m : option jsstring) : UserInput :=
  {| name := None; gender := MALE; birthYear := []; yearPillar := [];
     monthPillar := []; dayPillar := []; hourPillar := []; startAge := [];
     firstDaYun := []; modelName := m; apiBaseUrl := None; apiKey := None |}.

Definition with_credentials (key base : option jsstring) : UserInput :=
  {| name := None; gender := MALE; birthYear := []; yearPillar := [];
     monthPillar := []; dayPillar := []; hourPillar := []; startAge := [];
     firstDaYun := []; modelName := None; apiBaseUrl := base; apiKey := key |}.

(* ================================================================= *)
(** ** Strings: membership of a text in another *)

Lemma starts_with_app (n rest : jsstring) : starts_with n (n ++ rest) = true.
Proof.
  induction n as [|a n IH]; simpl; [reflexivity|].
  now rewrite Z.eqb_refl, IH.
Qed.

Lemma starts_with_app_r (n a b : jsstring) :
  starts_with n a = true -> starts_with n (a ++ b) = true.
Proof.
  revert a; induction n as [|x n IH]; intros [|y a]; simpl; try easy.
  intros H. apply andb_true_iff in H as [H1 H2].
  now rewrite H1, IH.
Qed.

Lemma includes_app_l (a b n : jsstring) :
  includes a n = true -> includes (a ++ b) n = true.
Proof.
  induction a as [|x a IH]; simpl.
  - rewrite orb_false_r. intros H. destruct n; [|discriminate].
    destruct b; reflexivity.
  - intros H. apply orb_true_iff in H as [H|H].
    + change (x :: a ++ b) with ((x :: a) ++ b).
      now rewrite (starts_with_app_r _ _ _ H).
    + rewrite (IH H). apply orb_true_r.
Qed.

Lemma includes_app_r (a b n : jsstring) :
  includes b n = true -> includes (a ++ b) n = true.
Proof.
  induction a as [|x a IH]; simpl; [easy|].
  intros H. rewrite (IH H). apply orb_true_r.
Qed.

Lemma includes_self_prefix (n rest : jsstring) : includes (n ++ rest) n = true.
Proof.
  destruct n as [|a n]; [destruct rest; reflexivity|].
  cbn [app includes]. change (a :: n ++ rest) with ((a :: n) ++ rest).
  now rewrite starts_with_app.
Qed.

(** ** The request loop, one pass at a time *)


Ltac run_monad :=
  cbv [pass try_catch attempt_try attempt_catch bind fetch set_response
       incr_attempt get_attempt get_response wait ret throw lift out_of_fuel];
  cbn [calls trace attempt response].

Ltac settle := cbn [calls trace attempt response negb message_of Z.eqb Pos.eqb].

Lemma serviceUnavailable_has_503 (errText : jsstring) :
  includes (serviceUnavailableMessage errText) (lit "503") = true.
Proof.
  unfold serviceUnavailableMessage.
  apply includes_app_l. vm_compute. reflexivity.
Qed.

Section Passes.
Variable server : nat -> FetchOutcome.
Variable req : Request.

Lemma pass_503_retry (m : Machine) (r : Response) :
  server (calls m) = Responded r ->
  status r = 503 ->
  attempt m + 1 < retries ->
  pass server req m =
    (Return Continue,
     {| calls := S (calls m);
        trace := (trace m ++ [EvFetch req]) ++ [EvWait (2000 * (attempt m + 1))];
        attempt := attempt m + 1;
        response := Some r |}).
Proof.
  intros Hs H503 Hlt. run_monad. rewrite Hs, H503. settle.
  destruct (retries <=? attempt m + 1) eqn:E; [apply Z.leb_le in E; lia|].
  reflexivity.
Qed.

Lemma pass_503_exhausted (m : Machine) (r : Response) :
  server (calls m) = Responded r ->
  status r = 503 ->
  retries <= attempt m + 1 ->
  pass server req m =
    (Throw (Error (serviceUnavailableMessage (body r))),
     {| calls := S (calls m);
        trace := trace m ++ [EvFetch req];
        attempt := attempt m + 1;
        response := Some r |}).
Proof.
  intros Hs H503 Hle. run_monad. rewrite Hs, H503. settle.
  destruct (retries <=? attempt m + 1) eqn:E; [|apply Z.leb_gt in E; lia].
  settle. rewrite serviceUnavailable_has_503. reflexivity.
Qed.

Lemma pass_ok (m : Machine) (r : Response) :
  server (calls m) = Responded r ->
  ok r = true ->
  pass server req m =
    (Return Break,
     {| calls := S (calls m);
        trace := trace m ++ [EvFetch req];
        attempt := attempt m;
        response := Some r |}).
Proof.
  intros Hs Hok. run_monad. rewrite Hs. settle.
  destruct (status r =? 503) eqn:E.
  - apply Z.eqb_eq in E. unfold ok in Hok. rewrite E in Hok. discriminate.
  - rewrite Hok. reflexivity.
Qed.

Lemma pass_http_error_retry (m : Machine) (r : Response) :
  server (calls m) = Responded r ->
  status r <> 503 ->
  ok r = false ->
  includes (httpErrorMessage (status r) (body r)) (lit "503") = false ->
  attempt m + 1 < retries ->
  pass server req m =
    (Return Continue,
     {| calls := S (calls m);
        trace := (trace m ++ [EvFetch req]) ++ [EvWait 2000];
        attempt := attempt m + 1;
        response := Some r |}).
Proof.
  intros Hs Hne Hok Hinc Hlt. run_monad. rewrite Hs. settle.
  destruct (status r =? 503) eqn:E; [apply Z.eqb_eq in E; contradiction|].
  rewrite Hok. settle. rewrite Hinc. settle.
  destruct (retries <=? attempt m + 1) eqn:E'; [apply Z.leb_le in E'; lia|].
  reflexivity.
Qed.

Lemma pass_http_error_final (m : Machine) (r : Response) :
  server (calls m) = Responded r ->
  status r <> 503 ->
  ok r = false ->
  includes (httpErrorMessage (status r) (body r)) (lit "503") = false ->
  retries <= attempt m + 1 ->
  pass server req m =
    (Throw (Error (httpErrorMessage (status r) (body r))),
     {| calls := S (calls m);
        trace := trace m ++ [EvFetch req];
        attempt := attempt m + 1;
        response := Some r |}).
Proof.
  intros Hs Hne Hok Hinc Hle. run_monad. rewrite Hs. settle.
  destruct (status r =? 503) eqn:E; [apply Z.eqb_eq in E; contradiction|].
  rewrite Hok. settle. rewrite Hinc. settle.
  destruct (retries <=? attempt m + 1) eqn:E'; [|apply Z.leb_gt in E'; lia].
  reflexivity.
Qed.

Lemma request_loop_unfold (f : nat) (m : Machine) :
  request_loop (S f) server req m =
    if attempt m <? retries then
      match pass server req m with
      | (Return Break, m') => (Return tt, m')
      | (Return Continue, m') => request_loop f server req m'
      | (Throw e, m') => (Throw e, m')
      | (OutOfFuel, m') => (OutOfFuel, m')
      end
    else (Return tt, m).
Proof.
  cbn [request_loop]. unfold bind at 1. unfold get_attempt.
  destruct (attempt m <? retries); [|reflexivity].
  unfold bind, pass.
  destruct (try_catch (attempt_try server req) attempt_catch m) as [[[]|e|] m'];
    reflexivity.
Qed.
End Passes.

(** ** Blank strings *)

Lemma trimStart_nil_iff (s : jsstring) :
  trimStart s = [] <-> forallb is_js_whitespace s = true.
Proof.
  induction s as [|c s IH]; simpl; [tauto|].
  destruct (is_js_whitespace c); simpl; [exact IH|].
  split; discriminate.
Qed.

Lemma trimStart_head (s r : jsstring) (c : Z) :
  trimStart s = c :: r -> is_js_whitespace c = false.
Proof.
  induction s as [|d s IH]; simpl; [discriminate|].
  destruct (is_js_whitespace d) eqn:E; [exact IH|].
  intros H. injection H as -> _. exact E.
Qed.

Lemma forallb_rev (p : Z -> bool) (s : jsstring) :
  forallb p (rev s) = forallb p s.
Proof.
  induction s as [|c s IH]; simpl; [reflexivity|].
  rewrite forallb_app, IH. simpl. rewrite andb_true_r. apply andb_comm.
Qed.

Lemma trim_nil_iff (s : jsstring) :
  trim s = [] <-> forallb is_js_whitespace s = true.
Proof.
  unfold trim, trimEnd. split.
  - intros H. apply (f_equal (@rev Z)) in H. rewrite rev_involutive in H.
    simpl in H. apply trimStart_nil_iff in H. rewrite forallb_rev in H.
    destruct (trimStart s) as [|c r] eqn:E.
    + now apply trimStart_nil_iff.
    + apply trimStart_head in E. simpl in H. rewrite E in H. discriminate.
  - intros H. apply trimStart_nil_iff in H. rewrite H. reflexivity.
Qed.

Lemma blank_spec (s : jsstring) : blank s = forallb is_js_whitespace s.
Proof.
  unfold blank. destruct s as [|c s]; [reflexivity|].
  cbn [str_truthy negb orb].
  destruct (trim (c :: s)) as [|d t] eqn:E.
  - symmetry. now apply trim_nil_iff.
  - cbn [str_truthy negb]. symmetry.
    destruct (forallb is_js_whitespace (c :: s)) eqn:F; [|reflexivity].
    apply trim_nil_iff in F. congruence.
Qed.

(** ** The whole call *)

Lemma generateLifeAnalysis_configured server input key base :
  apiKey input = Some key -> blank key = false ->
  apiBaseUrl input = Some base -> blank base = false ->
  generateLifeAnalysis server input =
    run_request server (request_of input key base) initial.
Proof.
  intros Hk Hkb Hb Hbb. unfold generateLifeAnalysis.
  now rewrite Hk, Hkb, Hb, Hbb.
Qed.

Lemma run_request_unfold server req m :
  run_request server req m =
    match request_loop (S (Z.to_nat retries)) server req m with
    | (Return _, m') =>
        match response m' with
        | None => (Throw (Error unknownMessage), m')
        | Some r => (handle_response r, m')
        end
    | (Throw e, m') => (Throw e, m')
    | (OutOfFuel, m') => (OutOfFuel, m')
    end.
Proof.
  unfold run_request, bind, get_response.
  destruct (request_loop _ server req m) as [[[]|e|] m']; try reflexivity.
  destruct (response m'); reflexivity.
Qed.

Lemma generateLifeAnalysis_accepted server input m r :
  accepted server input m r ->
  generateLifeAnalysis server input = (handle_response r, m).
Proof.
  intros (key & base & Hk & Hkb & Hb & Hbb & Hloop & Hr).
  rewrite (generateLifeAnalysis_configured _ _ _ _ Hk Hkb Hb Hbb).
  rewrite run_request_unfold, Hloop, Hr. reflexivity.
Qed.

(** Every pass that comes back to the loop test has counted one more
    attempt and made exactly one call; no pass runs out of fuel. *)
Lemma pass_inv server req m :
  match pass server req m with
  | (Return Continue, m') =>
      attempt m' = attempt m + 1 /\ calls m' = S (calls m)
  | (Return Break, m') => calls m' = S (calls m) /\ response m' <> None
  | (Throw _, m') => calls m' = S (calls m)
  | (OutOfFuel, _) => False
  end.
Proof.
  run_monad. destruct (server (calls m)) as [msg|r]; settle.
  - destruct (includes msg (lit "503")); settle; [reflexivity|].
    destruct (retries <=? attempt m + 1); settle; [reflexivity|now split].
  - destruct (status r =? 503); settle.
    + destruct (retries <=? attempt m + 1); settle.
      * rewrite serviceUnavailable_has_503. reflexivity.
      * now split.
    + destruct (ok r); settle.
      * split; [reflexivity|discriminate].
      * destruct (includes _ _); settle; [reflexivity|].
        destruct (retries <=? _); settle; [reflexivity|now split].
Qed.

Lemma request_loop_inv server req (f : nat) : forall m,
  Z.max 0 (retries - attempt m) < Z.of_nat f ->
  match request_loop f server req m with
  | (OutOfFuel, _) => False
  | (_, m') =>
      Z.of_nat (calls m') - Z.of_nat (calls m) <= Z.max 0 (retries - attempt m)
  end.
Proof.
  induction f as [|f IH]; intros m Hf.
  - cbn [request_loop out_of_fuel]. unfold retries in *. lia.
  - rewrite request_loop_unfold.
    destruct (attempt m <? retries) eqn:E.
    + apply Z.ltb_lt in E. pose proof (pass_inv server req m) as P.
      destruct (pass server req m) as [[[]|e|] m'].
      * destruct P as [Pc _]. lia.
      * destruct P as [Pa Pc].
        specialize (IH m'). rewrite Pa in IH.
        assert (Hf' : Z.max 0 (retries - (attempt m + 1)) < Z.of_nat f) by lia.
        specialize (IH Hf').
        destruct (request_loop f server req m') as [[u|e|] m'']; try lia.
      * lia.
      * exact P.
    + lia.
Qed.

(** The call always ends, by returning or by throwing, after at most
    three calls of [fetch]. *)
Lemma generateLifeAnalysis_total server input :
  fst (generateLifeAnalysis server input) <> OutOfFuel /\
  (calls (snd (generateLifeAnalysis server input)) <= 3)%nat.
Proof.
  unfold generateLifeAnalysis.
  assert (I : fst (throw (A:=LifeDestinyResult) (Error apiKeyMessage) initial)
              <> OutOfFuel /\
              (calls (snd (throw (A:=LifeDestinyResult) (Error apiKeyMessage) initial)) <= 3)%nat)
    by (split; [discriminate|cbn; lia]).
  assert (J : fst (throw (A:=LifeDestinyResult) (Error apiBaseUrlMessage) initial)
              <> OutOfFuel /\
              (calls (snd (throw (A:=LifeDestinyResult) (Error apiBaseUrlMessage) initial)) <= 3)%nat)
    by (split; [discriminate|cbn; lia]).
  destruct (apiKey input) as [key|]; [|exact I].
  destruct (blank key); [exact I|].
  destruct (apiBaseUrl input) as [base|]; [|exact J].
  destruct (blank base); [exact J|].
  rewrite run_request_unfold.
  pose proof (request_loop_inv server (request_of input key base)
                (S (Z.to_nat retries)) initial) as L.
  assert (Hf : Z.max 0 (retries - attempt initial) < Z.of_nat (S (Z.to_nat retries)))
    by reflexivity.
  specialize (L Hf).
  destruct (request_loop _ server _ initial) as [[u|e|] m'].
  - cbn [calls attempt initial] in L. unfold retries in L.
    destruct (response m') as [r|]; cbn [fst snd].
    + split; [|lia]. unfold handle_response, response_data, response_content.
      destruct (JSON_parse (body r)) as [j|]; [|discriminate].
      unfold extract_content. destruct (nullish j); [discriminate|].
      cbn [obind]. destruct (negb _); [discriminate|]. cbn [obind].
      unfold parse_content.
      destruct (opt_member _ _); try discriminate.
      destruct (JSON_parse _); [|discriminate]. cbn [obind].
      unfold build_result. destruct (negb _); [discriminate|].
      destruct (negb _); discriminate.
    + split; [discriminate|lia].
  - cbn [calls attempt initial fst snd] in *. unfold retries in L.
    split; [discriminate|lia].
  - contradiction.
Qed.

(* ================================================================= *)
(** ** The retry policy *)

(** C1 (defect in the code).  A 403 reply is not fatal at once: the [throw]
    of the HTTP error sits inside the [try] whose handler retries, so the
    call makes three requests, waits two seconds twice, and only then
    surfaces the error of the third reply. *)
Theorem C1_http_error_is_retried :
  fst (generateLifeAnalysis (always forbidden) sample_input)
    = Throw (Error (httpErrorMessage 403 (lit "Forbidden")))
  /\ fetches (snd (generateLifeAnalysis (always forbidden) sample_input))
    = [sample_request; sample_request; sample_request]
  /\ waits (snd (generateLifeAnalysis (always forbidden) sample_input))
    = [2000; 2000].
Proof. vm_compute. repeat split. Qed.

(** C2.  Three 503 replies in a row: waits of 2000 ms times the attempt
    number after the first and after the second, three requests in all,
    and a ServiceUnavailable error whose message holds the body text of the
    last reply, "503" and the attempt count "3". *)
Theorem C2_three_503_exhaust_the_budget
  (server : nat -> FetchOutcome) (input : UserInput) (key base : jsstring)
  (r1 r2 r3 : Response) :
  apiKey input = Some key -> blank key = false ->
  apiBaseUrl input = Some base -> blank base = false ->
  server 0%nat = Responded r1 -> status r1 = 503 ->
  server 1%nat = Responded r2 -> status r2 = 503 ->
  server 2%nat = Responded r3 -> status r3 = 503 ->
  let req := request_of input key base in
  let msg := serviceUnavailableMessage (body r3) in
  exists m,
    generateLifeAnalysis server input = (Throw (Error msg), m)
    /\ ServiceUnavailable (Error msg)
    /\ trace m = [EvFetch req; EvWait (2000 * 1); EvFetch req;
                  EvWait (2000 * 2); EvFetch req]
    /\ calls m = 3%nat
    /\ msg = lit "API 请求失败 (503 Service Unavailable) - 已重试 "
             ++ lit "3" ++ lit " 次: " ++ body r3
    /\ includes msg (body r3) = true
    /\ includes msg (lit "503") = true
    /\ includes msg (lit "3") = true.
Proof.
  intros Hk Hkb Hb Hbb H1 S1 H2 S2 H3 S3 req msg.
  rewrite (generateLifeAnalysis_configured _ _ _ _ Hk Hkb Hb Hbb).
  fold req. rewrite run_request_unfold.
  change (S (Z.to_nat retries)) with 4%nat.
  rewrite request_loop_unfold. change (attempt initial <? retries) with true.
  cbv iota.
  rewrite (pass_503_retry server req initial r1 H1 S1) by reflexivity.
  rewrite request_loop_unfold. cbn [attempt initial calls trace].
  change (0 + 1 <? retries) with true. cbv iota.
  erewrite pass_503_retry; [|exact H2|exact S2|reflexivity].
  rewrite request_loop_unfold. cbn [attempt initial calls trace].
  change (0 + 1 + 1 <? retries) with true. cbv iota.
  erewrite pass_503_exhausted; [|exact H3|exact S3|cbn; unfold retries; lia].
  eexists. split; [reflexivity|]. cbn [trace calls initial app].
  split; [now exists (body r3)|].
  split; [reflexivity|]. split; [reflexivity|]. split; [reflexivity|].
  split; [|split].
  - unfold msg, serviceUnavailableMessage.
    rewrite !app_assoc. apply includes_app_r.
    rewrite <- (app_nil_r (body r3)) at 1. apply includes_self_prefix.
  - apply serviceUnavailable_has_503.
  - unfold msg, serviceUnavailableMessage.
    apply includes_app_r, includes_app_l. reflexivity.
Qed.

Lemma C2_witness :
  exists m,
    generateLifeAnalysis (always busy) sample_input
      = (Throw (Error (serviceUnavailableMessage (lit "overloaded"))), m)
    /\ waits m = [2000; 4000] /\ calls m = 3%nat.
Proof.
  destruct (C2_three_503_exhaust_the_budget (always busy) sample_input
              (lit "secret") (lit "https://x/") busy busy busy)
    as (m & Hrun & _ & Htrace & Hcalls & _); try (vm_compute; reflexivity).
  exists m. split; [exact Hrun|]. split; [|exact Hcalls].
  unfold waits. rewrite Htrace. reflexivity.
Defined.

(** C3.  Two 503 replies and then a 200 reply whose body is valid: the call
    succeeds on the third request with the result read from that body. *)
Theorem C3_success_on_third_attempt
  (server : nat -> FetchOutcome) (input : UserInput) (key base : jsstring)
  (r1 r2 r3 : Response) (result : LifeDestinyResult) :
  apiKey input = Some key -> blank key = false ->
  apiBaseUrl input = Some base -> blank base = false ->
  server 0%nat = Responded r1 -> status r1 = 503 ->
  server 1%nat = Responded r2 -> status r2 = 503 ->
  server 2%nat = Responded r3 -> status r3 = 200 ->
  handle_response r3 = Return result ->
  let req := request_of input key base in
  exists m,
    generateLifeAnalysis server input = (Return result, m)
    /\ calls m = 3%nat
    /\ response m = Some r3
    /\ trace m = [EvFetch req; EvWait 2000; EvFetch req; EvWait 4000;
                  EvFetch req].
Proof.
  intros Hk Hkb Hb Hbb H1 S1 H2 S2 H3 S3 Hres req.
  rewrite (generateLifeAnalysis_configured _ _ _ _ Hk Hkb Hb Hbb).
  fold req. rewrite run_request_unfold.
  change (S (Z.to_nat retries)) with 4%nat.
  rewrite request_loop_unfold. change (attempt initial <? retries) with true.
  cbv iota.
  rewrite (pass_503_retry server req initial r1 H1 S1) by reflexivity.
  rewrite request_loop_unfold. cbn [attempt initial calls trace].
  change (0 + 1 <? retries) with true. cbv iota.
  erewrite pass_503_retry; [|exact H2|exact S2|reflexivity].
  rewrite request_loop_unfold. cbn [attempt initial calls trace].
  change (0 + 1 + 1 <? retries) with true. cbv iota.
  erewrite pass_ok; [|exact H3|unfold ok; rewrite S3; reflexivity].
  cbn [response]. rewrite Hres.
  eexists. split; [reflexivity|]. cbn [trace calls response initial app].
  repeat split.
Qed.

Lemma C3_witness :
  exists m,
    generateLifeAnalysis (script [busy; busy] good) sample_input
      = (Return sample_result, m)
    /\ calls m = 3%nat.
Proof.
  destruct (C3_success_on_third_attempt (script [busy; busy] good) sample_input
              (lit "secret") (lit "https://x/") busy busy good sample_result)
    as (m & Hrun & Hcalls & _); try (vm_compute; reflexivity).
  exists m. split; [exact Hrun|exact Hcalls].
Defined.

(** C4.  An API key or a base URL that is missing, empty or made of white
    space only makes the call fail with a ConfigurationError before any
    request is sent. *)
Theorem C4_blank_credentials_fail_before_any_request
  (server : nat -> FetchOutcome) (input : UserInput) :
  missing_or_blank (apiKey input) = true
  \/ missing_or_blank (apiBaseUrl input) = true ->
  exists e,
    generateLifeAnalysis server input = (Throw e, initial)
    /\ ConfigurationError e
    /\ calls initial = 0%nat /\ trace initial = [].
Proof.
  intros H.
  assert (K : exists e,
             (Throw (A:=LifeDestinyResult) (Error apiKeyMessage), initial)
               = (Throw e, initial)
             /\ ConfigurationError e
             /\ calls initial = 0%nat /\ trace initial = [])
    by (exists (Error apiKeyMessage); repeat split; now left).
  assert (B : exists e,
             (Throw (A:=LifeDestinyResult) (Error apiBaseUrlMessage), initial)
               = (Throw e, initial)
             /\ ConfigurationError e
             /\ calls initial = 0%nat /\ trace initial = [])
    by (exists (Error apiBaseUrlMessage); repeat split; now right).
  unfold generateLifeAnalysis, throw.
  destruct (apiKey input) as [key|]; [|exact K].
  rewrite blank_spec.
  destruct (forallb is_js_whitespace key) eqn:Ek; [exact K|].
  destruct H as [H|H]; [simpl in H; congruence|].
  destruct (apiBaseUrl input) as [base|]; [|exact B].
  rewrite blank_spec. simpl in H. rewrite H. exact B.
Qed.

Lemma C4_witness :
  exists e,
    generateLifeAnalysis (always good)
      {| name := None; gender := FEMALE; birthYear := []; yearPillar := [];
         monthPillar := []; dayPillar := []; hourPillar := []; startAge := [];
         firstDaYun := []; modelName := None;
         apiBaseUrl := Some (lit "https://x");
         apiKey := Some (lit "   ") |} = (Throw e, initial)
    /\ ConfigurationError e.
Proof.
  destruct (C4_blank_credentials_fail_before_any_request (always good)
      {| name := None; gender := FEMALE; birthYear := []; yearPillar := [];
         monthPillar := []; dayPillar := []; hourPillar := []; startAge := [];
         firstDaYun := []; modelName := None;
         apiBaseUrl := Some (lit "https://x");
         apiKey := Some (lit "   ") |}) as (e & Hrun & Hcfg & _).
  - left. reflexivity.
  - exists e. split; assumption.
Defined.

(* ================================================================= *)
(** ** Validation and defaults of the result *)

Lemma build_result_spec (data : JSValue) :
  build_result data =
    if isArray (opt_member data (lit "chartPoints")) then
      Return
        {| chartData := opt_member data (lit "chartPoints");
           analysis :=
             {| bazi := js_or (get_member data (lit "bazi")) (JArray []);
                summary := js_or (get_member data (lit "summary"))
                             (JString (lit "无摘要"));
                summaryScore := js_or (get_member data (lit "summaryScore"))
                                  (JNumber (num 5));
                industry := js_or (get_member data (lit "industry"))
                              (JString (lit "无"));
                industryScore := js_or (get_member data (lit "industryScore"))
                                   (JNumber (num 5));
                wealth := js_or (get_member data (lit "wealth"))
                            (JString (lit "无"));
                wealthScore := js_or (get_member data (lit "wealthScore"))
                                 (JNumber (num 5));
                marriage := js_or (get_member data (lit "marriage"))
                              (JString (lit "无"));
                marriageScore := js_or (get_member data (lit "marriageScore"))
                                   (JNumber (num 5));
                health := js_or (get_member data (lit "health"))
                            (JString (lit "无"));
                healthScore := js_or (get_member data (lit "healthScore"))
                                 (JNumber (num 5));
                family := js_or (get_member data (lit "family"))
                            (JString (lit "无"));
                familyScore := js_or (get_member data (lit "familyScore"))
                                 (JNumber (num 5)) |} |}
    else Throw (Error missingFieldMessage).
Proof.
  unfold build_result, opt_member.
  destruct (nullish data) eqn:N.
  - reflexivity.
  - destruct (get_member data (lit "chartPoints")) as [| |b|x|s|xs|ms];
      try reflexivity.
    + destruct b; reflexivity.
    + cbn [truthy isArray negb]. destruct (number_truthy x); reflexivity.
    + destruct s; reflexivity.
Qed.

Lemma accepted_result server input m r data :
  accepted server input m r ->
  response_data r = Return data ->
  fst (generateLifeAnalysis server input) = build_result data.
Proof.
  intros Hacc Hdata.
  rewrite (generateLifeAnalysis_accepted _ _ _ _ Hacc).
  unfold handle_response. rewrite Hdata. reflexivity.
Qed.

(** C6.  Whatever object the reply parses to: when its chartPoints member
    is missing or is not an array the call fails with a MissingFieldError,
    and when it is an array the call returns, with that array as the chart
    data. *)
Theorem C6_chartPoints_must_be_an_array
  (server : nat -> FetchOutcome) (input : UserInput) (m : Machine)
  (r : Response) (data : JSValue) :
  accepted server input m r ->
  response_data r = Return data ->
  (isArray (opt_member data (lit "chartPoints")) = false ->
   exists e,
     fst (generateLifeAnalysis server input) = Throw e /\ MissingFieldError e)
  /\
  (isArray (opt_member data (lit "chartPoints")) = true ->
   exists result,
     fst (generateLifeAnalysis server input) = Return result
     /\ chartData result = opt_member data (lit "chartPoints")).
Proof.
  intros Hacc Hdata.
  rewrite (accepted_result _ _ _ _ _ Hacc Hdata), build_result_spec.
  split; intros ->.
  - eexists. split; reflexivity.
  - eexists. split; reflexivity.
Qed.

Lemma always_accepted (r : Response) :
  ok r = true ->
  accepted (always r) sample_input
    (after_loop (always r) sample_input (lit "secret") (lit "https://x/")) r.
Proof.
  intros Hok. exists (lit "secret"), (lit "https://x/").
  split; [reflexivity|]. split; [vm_compute; reflexivity|].
  split; [reflexivity|]. split; [vm_compute; reflexivity|].
  unfold after_loop. change (S (Z.to_nat retries)) with 4%nat.
  rewrite request_loop_unfold. change (attempt initial <? retries) with true.
  cbv iota. erewrite pass_ok; [|reflexivity|exact Hok].
  split; reflexivity.
Qed.

Lemma C6_witness :
  exists e,
    fst (generateLifeAnalysis (always lacking) sample_input) = Throw e
    /\ MissingFieldError e.
Proof.
  refine (proj1 (C6_chartPoints_must_be_an_array (always lacking) sample_input
                   (after_loop (always lacking) sample_input (lit "secret")
                      (lit "https://x/"))
                   lacking
                   (JObject [(lit "bazi", JArray [])]) _ _) _).
  - apply always_accepted. reflexivity.
  - vm_compute. reflexivity.
  - vm_compute. reflexivity.
Defined.

(** C9.  The defaults replace every falsy value, not only absent members:
    a score that is present and 0 becomes 5, a text that is present and
    empty becomes its placeholder; a truthy value is kept. *)
Theorem C9_defaults_replace_falsy_values
  (server : nat -> FetchOutcome) (input : UserInput) (m : Machine)
  (r : Response) (data : JSValue) (result : LifeDestinyResult) :
  accepted server input m r ->
  response_data r = Return data ->
  fst (generateLifeAnalysis server input) = Return result ->
  (forall key field, In (key, field) score_fields ->
     (truthy (get_member data key) = false ->
      field (analysis result) = JNumber (num 5))
     /\ (forall sign, get_member data key = JNumber (S754_zero sign) ->
         field (analysis result) = JNumber (num 5))
     /\ (truthy (get_member data key) = true ->
         field (analysis result) = get_member data key))
  /\
  (forall key placeholder field, In (key, placeholder, field) text_fields ->
     (truthy (get_member data key) = false ->
      field (analysis result) = JString placeholder)
     /\ (get_member data key = JString [] ->
         field (analysis result) = JString placeholder)
     /\ (truthy (get_member data key) = true ->
         field (analysis result) = get_member data key)).
Proof.
  intros Hacc Hdata Hres.
  rewrite (accepted_result _ _ _ _ _ Hacc Hdata), build_result_spec in Hres.
  destruct (isArray _); [|discriminate].
  injection Hres as <-. cbn [analysis].
  split.
  - intros key field Hin.
    assert (E : field
                  {| bazi := js_or (get_member data (lit "bazi")) (JArray []);
                     summary := js_or (get_member data (lit "summary"))
                                  (JString (lit "无摘要"));
                     summaryScore := js_or (get_member data (lit "summaryScore"))
                                       (JNumber (num 5));
                     industry := js_or (get_member data (lit "industry"))
                                   (JString (lit "无"));
                     industryScore := js_or (get_member data (lit "industryScore"))
                                        (JNumber (num 5));
                     wealth := js_or (get_member data (lit "wealth"))
                                 (JString (lit "无"));
                     wealthScore := js_or (get_member data (lit "wealthScore"))
                                      (JNumber (num 5));
                     marriage := js_or (get_member data (lit "marriage"))
                                   (JString (lit "无"));
                     marriageScore := js_or (get_member data (lit "marriageScore"))
                                        (JNumber (num 5));
                     health := js_or (get_member data (lit "health"))
                                 (JString (lit "无"));
                     healthScore := js_or (get_member data (lit "healthScore"))
                                      (JNumber (num 5));
                     family := js_or (get_member data (lit "family"))
                                 (JString (lit "无"));
                     familyScore := js_or (get_member data (lit "familyScore"))
                                      (JNumber (num 5)) |}
                = js_or (get_member data key) (JNumber (num 5))).
    { unfold score_fields in Hin. cbn [In] in Hin.
      repeat (destruct Hin as [Hin|Hin];
              [injection Hin as <- <-; reflexivity|]).
      contradiction. }
    rewrite E. unfold js_or. repeat split.
    + now intros ->.
    + now intros sign ->.
    + now intros ->.
  - intros key placeholder field Hin.
    assert (E : field
                  {| bazi := js_or (get_member data (lit "bazi")) (JArray []);
                     summary := js_or (get_member data (lit "summary"))
                                  (JString (lit "无摘要"));
                     summaryScore := js_or (get_member data (lit "summaryScore"))
                                       (JNumber (num 5));
                     industry := js_or (get_member data (lit "industry"))
                                   (JString (lit "无"));
                     industryScore := js_or (get_member data (lit "industryScore"))
                                        (JNumber (num 5));
                     wealth := js_or (get_member data (lit "wealth"))
                                 (JString (lit "无"));
                     wealthScore := js_or (get_member data (lit "wealthScore"))
                                      (JNumber (num 5));
                     marriage := js_or (get_member data (lit "marriage"))
                                   (JString (lit "无"));
                     marriageScore := js_or (get_member data (lit "marriageScore"))
                                        (JNumber (num 5));
                     health := js_or (get_member data (lit "health"))
                                 (JString (lit "无"));
                     healthScore := js_or (get_member data (lit "healthScore"))
                                      (JNumber (num 5));
                     family := js_or (get_member data (lit "family"))
                                 (JString (lit "无"));
                     familyScore := js_or (get_member data (lit "familyScore"))
                                      (JNumber (num 5)) |}
                = js_or (get_member data key) (JString placeholder)).
    { unfold text_fields in Hin. cbn [In] in Hin.
      repeat (destruct Hin as [Hin|Hin];
              [injection Hin as <- <- <-; reflexivity|]).
      contradiction. }
    rewrite E. unfold js_or. repeat split.
    + now intros ->.
    + now intros ->.
    + now intros ->.
Qed.

Lemma C9_witness :
  summaryScore (analysis
    (match fst (generateLifeAnalysis (always zeroed) sample_input) with
     | Return x => x
     | _ => sample_result
     end)) = JNumber (num 5).
Proof.
  refine (proj1 (proj2 (proj1
    (C9_defaults_replace_falsy_values (always zeroed) sample_input
       (after_loop (always zeroed) sample_input (lit "secret")
          (lit "https://x/"))
       zeroed
       (JObject [(lit "chartPoints", JArray []);
                 (lit "summaryScore", JNumber (S754_zero false));
                 (lit "summary", JString [])])
       (match fst (generateLifeAnalysis (always zeroed) sample_input) with
        | Return x => x
        | _ => sample_result
        end) _ _ _)
    (lit "summaryScore") summaryScore _)) false _).
  - apply always_accepted. reflexivity.
  - vm_compute. reflexivity.
  - vm_compute. reflexivity.
  - left. reflexivity.
  - vm_compute. reflexivity.
Defined.

(* ================================================================= *)
(** ** Derived metadata *)

Lemma jsstring_eqb_eq (a b : jsstring) : jsstring_eqb a b = true <-> a = b.
Proof.
  unfold jsstring_eqb. destruct (list_eq_dec Z.eq_dec a b); split; congruence.
Qed.

Lemma stems_disjoint (x : jsstring) :
  array_includes yangStems x = true -> array_includes yinStems x = false.
Proof.
  unfold array_includes. intros H.
  apply existsb_exists in H as (y & Hin & Heq).
  apply jsstring_eqb_eq in Heq. subst y.
  unfold yangStems in Hin. cbn [In] in Hin.
  repeat (destruct Hin as [Hin|Hin]; [subst x; vm_compute; reflexivity|]).
  contradiction.
Qed.

(** C7, as the code has it.  The stem is looked up on the first unit that
    is left after trimming: "甲子" is YANG, "乙丑" is YIN, the empty string
    is YANG, and every pillar whose first unit after trimming is in neither
    set of stems is YANG; YIN is returned exactly for the yin stems. *)
Theorem C7_stem_polarity_after_trim :
  getStemPolarity (lit "甲子") = YANG
  /\ getStemPolarity (lit "乙丑") = YIN
  /\ getStemPolarity [] = YANG
  /\ (forall pillar,
        in_stems (charAt (trim pillar) 0) = false ->
        getStemPolarity pillar = YANG)
  /\ (forall pillar,
        getStemPolarity pillar = YIN <->
        array_includes yinStems (charAt (trim pillar) 0) = true).
Proof.
  split; [vm_compute; reflexivity|].
  split; [vm_compute; reflexivity|].
  split; [reflexivity|].
  split.
  - intros pillar H. unfold in_stems in H.
    apply orb_false_iff in H as [Hy Hi].
    unfold getStemPolarity. rewrite Hy, Hi. now destruct (negb _).
  - intros pillar. unfold getStemPolarity.
    destruct pillar as [|c s]; cbn [str_truthy negb].
    + split; [discriminate|]. vm_compute. discriminate.
    + destruct (array_includes yangStems (charAt (trim (c :: s)) 0)) eqn:Ey.
      * split; [discriminate|]. intros Hi.
        rewrite (stems_disjoint _ Ey) in Hi. discriminate.
      * destruct (array_includes yinStems (charAt (trim (c :: s)) 0));
          split; congruence.
Qed.

Lemma C7_witness : getStemPolarity (lit "子甲") = YANG.
Proof.
  apply (proj1 (proj2 (proj2 (proj2 C7_stem_polarity_after_trim)))).
  vm_compute. reflexivity.
Defined.

(** The claim as written looks at the first unit of the string itself: it
    fails on a pillar that starts with a space. *)
Lemma C7_counterexample :
  ~ (forall pillar,
       in_stems (charAt pillar 0) = false -> getStemPolarity pillar = YANG).
Proof.
  intros H. specialize (H (lit " 乙丑")).
  assert (E : in_stems (charAt (lit " 乙丑") 0) = false)
    by (vm_compute; reflexivity).
  specialize (H E). vm_compute in H. discriminate.
Qed.

(** C8.  The direction of the Da Yun sequence: forward for MALE with a YANG
    year stem and for a subject that is not MALE with a YIN year stem,
    backward in the two other cases. *)
Theorem C8_direction (input : UserInput) :
  (gender input = MALE -> yearStemPolarity input = YANG ->
   isForward input = true
   /\ daYunDirectionStr input = lit "顺行 (Forward)")
  /\ (gender input = MALE -> yearStemPolarity input = YIN ->
      isForward input = false
      /\ daYunDirectionStr input = lit "逆行 (Backward)")
  /\ (gender input <> MALE -> yearStemPolarity input = YIN ->
      isForward input = true
      /\ daYunDirectionStr input = lit "顺行 (Forward)")
  /\ (gender input <> MALE -> yearStemPolarity input = YANG ->
      isForward input = false
      /\ daYunDirectionStr input = lit "逆行 (Backward)").
Proof.
  unfold daYunDirectionStr, isForward.
  repeat apply conj; intros Hg Hp; rewrite Hp;
    destruct (gender input); try congruence; split; reflexivity.
Qed.

Lemma C8_witness :
  isForward (with_pillar FEMALE (lit "乙丑")) = true
  /\ daYunDirectionStr (with_pillar FEMALE (lit "乙丑")) = lit "顺行 (Forward)".
Proof.
  apply (proj1 (proj2 (proj2 (C8_direction (with_pillar FEMALE (lit "乙丑")))))).
  - discriminate.
  - vm_compute. reflexivity.
Defined.

(* ================================================================= *)
(** ** Rounding an integer to a Number *)

Lemma digits2_pos_lower (p : positive) :
  2 ^ (Zpos (digits2_pos p) - 1) <= Zpos p.
Proof.
  induction p as [p IH|p IH|]; cbn [digits2_pos].
  - rewrite Pos2Z.inj_succ.
    replace (Z.succ (Zpos (digits2_pos p)) - 1)
      with (Z.succ (Zpos (digits2_pos p) - 1)) by lia.
    rewrite Z.pow_succ_r by lia. lia.
  - rewrite Pos2Z.inj_succ.
    replace (Z.succ (Zpos (digits2_pos p)) - 1)
      with (Z.succ (Zpos (digits2_pos p) - 1)) by lia.
    rewrite Z.pow_succ_r by lia. lia.
  - reflexivity.
Qed.

Lemma shr_1_m (mrs : shr_record) :
  0 <= shr_m mrs -> shr_m (shr_1 mrs) = shr_m mrs / 2.
Proof.
  destruct mrs as [m r s]. cbn [shr_m shr_1]. intros Hm.
  destruct m as [|p|p]; [reflexivity| |lia].
  destruct p as [p|p|]; cbn [shr_m].
  - rewrite Pos2Z.inj_xI. apply Z.div_unique with 1; lia.
  - rewrite Pos2Z.inj_xO. apply Z.div_unique with 0; lia.
  - reflexivity.
Qed.

Lemma iter_shr_m (n : positive) : forall mrs,
  0 <= shr_m mrs ->
  shr_m (iter_pos shr_1 n mrs) = shr_m mrs / 2 ^ Zpos n.
Proof.
  induction n as [n IH|n IH|]; intros mrs Hm; cbn [iter_pos].
  - assert (H1 : 0 <= shr_m (shr_1 mrs))
      by (rewrite shr_1_m by assumption; apply Z.div_pos; lia).
    assert (H2 : 0 <= shr_m (iter_pos shr_1 n (shr_1 mrs)))
      by (rewrite IH by assumption; apply Z.div_pos;
          [assumption|apply Z.pow_pos_nonneg; lia]).
    rewrite IH, IH, shr_1_m by assumption.
    rewrite !Z.div_div by (try apply Z.pow_pos_nonneg; lia).
    f_equal. change (Zpos n~1) with (2 * Zpos n + 1).
    replace (2 * Zpos n + 1) with (1 + Zpos n + Zpos n) by lia.
    rewrite !Z.pow_add_r by lia. rewrite Z.pow_1_r. ring.
  - assert (H2 : 0 <= shr_m (iter_pos shr_1 n mrs))
      by (rewrite IH by assumption; apply Z.div_pos;
          [assumption|apply Z.pow_pos_nonneg; lia]).
    rewrite IH, IH by assumption.
    rewrite !Z.div_div by (try apply Z.pow_pos_nonneg; lia).
    f_equal. change (Zpos n~0) with (2 * Zpos n).
    replace (2 * Zpos n) with (Zpos n + Zpos n) by lia.
    rewrite Z.pow_add_r by lia. reflexivity.
  - rewrite shr_1_m by assumption. reflexivity.
Qed.

Lemma shr_record_of_loc_m (m : Z) (l : location) :
  shr_m (shr_record_of_loc m l) = m.
Proof. destruct l as [|[]]; reflexivity. Qed.

Lemma shr_fexp_positive (p : positive) (e : Z) (l : location) :
  -1074 <= e ->
  0 < shr_m (fst (shr_fexp prec64 emax64 (Zpos p) e l))
  /\ -1074 <= snd (shr_fexp prec64 emax64 (Zpos p) e l).
Proof.
  intros He. unfold shr_fexp, shr. cbn [Zdigits2].
  set (d := Zpos (digits2_pos p)).
  set (n := fexp prec64 emax64 (d + e) - e).
  assert (Hn : n <= d - 1).
  { unfold n, fexp, emin, prec64, emax64. lia. }
  destruct n as [|q|q] eqn:En; cbn [fst snd].
  - rewrite shr_record_of_loc_m. lia.
  - rewrite iter_shr_m by (rewrite shr_record_of_loc_m; lia).
    rewrite shr_record_of_loc_m. split; [|lia].
    apply Z.div_str_pos. split; [apply Z.pow_pos_nonneg; lia|].
    transitivity (2 ^ (d - 1)); [|apply digits2_pos_lower].
    apply Z.pow_le_mono_r; lia.
  - rewrite shr_record_of_loc_m. lia.
Qed.

Lemma round_nearest_even_positive (m : Z) (l : location) :
  0 < m -> 0 < round_nearest_even m l.
Proof.
  intros Hm. destruct l as [|[]]; cbn [round_nearest_even]; try lia.
  destruct (Z.even m); lia.
Qed.

(** Rounding a positive mantissa at an exponent that is not below the
    least one never gives a zero or NaN. *)
Lemma binary_round_aux_nonzero (sx : bool) (p : positive) (e : Z) (l : location) :
  -1074 <= e ->
  (exists m' e', binary_round_aux prec64 emax64 sx (Zpos p) e l
                 = S754_finite sx m' e')
  \/ binary_round_aux prec64 emax64 sx (Zpos p) e l = S754_infinity sx.
Proof.
  intros He. unfold binary_round_aux.
  pose proof (shr_fexp_positive p e l He) as [H1 H1e].
  destruct (shr_fexp prec64 emax64 (Zpos p) e l) as [mrs' e1].
  cbn [fst snd] in H1, H1e.
  pose proof (round_nearest_even_positive (shr_m mrs')
                (loc_of_shr_record mrs') H1) as H2.
  destruct (round_nearest_even (shr_m mrs') (loc_of_shr_record mrs'))
    as [|p2|p2]; try lia.
  pose proof (shr_fexp_positive p2 e1 loc_Exact H1e) as [H3 _].
  destruct (shr_fexp prec64 emax64 (Zpos p2) e1 loc_Exact) as [mrs'' e2].
  cbn [fst] in H3.
  destruct (shr_m mrs'') as [|p3|p3]; try lia.
  destruct (e2 <=? emax64 - prec64); [left; eauto|right; reflexivity].
Qed.

Lemma number_of_int_nonzero (neg : bool) (n : Z) :
  0 < n ->
  (exists m e, number_of_int neg n = S754_finite neg m e)
  \/ number_of_int neg n = S754_infinity neg.
Proof.
  intros Hn. unfold number_of_int, binary_normalize.
  destruct n as [|p|p]; try lia.
  assert (R : forall sx,
             (exists m e, binary_round prec64 emax64 sx p 0 = S754_finite sx m e)
             \/ binary_round prec64 emax64 sx p 0 = S754_infinity sx).
  { intros sx. unfold binary_round, shl_align.
    set (ex := fexp prec64 emax64 (Zpos (digits2_pos p) + 0)).
    assert (Hex : -1074 <= ex) by (unfold ex, fexp, emin, prec64, emax64; lia).
    destruct (ex - 0) as [|q|q] eqn:E.
    - apply binary_round_aux_nonzero. lia.
    - apply binary_round_aux_nonzero. lia.
    - apply binary_round_aux_nonzero. exact Hex. }
  destruct neg; cbn [Z.opp]; apply R.
Qed.

Lemma number_of_int_truthy (neg : bool) (n : Z) :
  0 < n -> number_truthy (number_of_int neg n) = true.
Proof.
  intros Hn.
  destruct (number_of_int_nonzero neg n Hn) as [(m & e & ->)| ->]; reflexivity.
Qed.


(** C10.  A starting age that parses to the integer 0 gives the default 1,
    although it is a numeric string; a string that parses to a negative
    integer is kept as parsed, a negative Number. *)
Theorem C10_zero_defaults_negative_kept (input : UserInput) :
  (forall neg, parseInt_math (startAge input) = Some (neg, 0) ->
     startAgeInt input = num 1)
  /\ (forall n, parseInt_math (startAge input) = Some (true, n) -> 0 < n ->
        startAgeInt input = parseInt (startAge input)
        /\ startAgeInt input = number_of_int true n
        /\ is_negative (startAgeInt input) = true).
Proof.
  unfold startAgeInt, parseInt. split.
  - intros neg ->. destruct neg; reflexivity.
  - intros n -> Hn.
    rewrite (number_of_int_truthy true n Hn).
    split; [reflexivity|]. split; [reflexivity|].
    destruct (number_of_int_nonzero true n Hn) as [(m & e & ->)| ->];
      reflexivity.
Qed.

Lemma C10_witness :
  startAgeInt (with_startAge (lit "0")) = num 1
  /\ startAgeInt (with_startAge (lit "-5")) = num (-5).
Proof.
  split.
  - apply (proj1 (C10_zero_defaults_negative_kept (with_startAge (lit "0")))
             false).
    vm_compute. reflexivity.
  - apply (proj1 (proj2 (proj2 (C10_zero_defaults_negative_kept
                                  (with_startAge (lit "-5")))
                           5 eq_refl eq_refl))).
Defined.

(* ================================================================= *)
(** ** Global replacement *)

Lemma remove_all_aux_skipn (pat : pattern) (k : nat) : forall s,
  remove_all_aux pat k s = remove_all pat (skipn k s).
Proof.
  induction k as [|k IH]; intros s; [reflexivity|].
  destruct s as [|c r]; [reflexivity|]. cbn [remove_all_aux skipn]. apply IH.
Qed.

Lemma remove_all_cons (pat : pattern) (c : Z) (r : jsstring) :
  remove_all pat (c :: r) =
    if matches_at pat (c :: r)
    then remove_all pat (skipn (Nat.pred (List.length pat)) r)
    else c :: remove_all pat r.
Proof.
  unfold remove_all at 1. cbn [remove_all_aux].
  destruct (matches_at pat (c :: r)); [apply remove_all_aux_skipn|reflexivity].
Qed.

Lemma matches_at_length (pat : pattern) : forall s,
  matches_at pat s = true -> (List.length pat <= List.length s)%nat.
Proof.
  induction pat as [|p pat IH]; intros s H; cbn; [lia|].
  destruct s as [|c r]; [discriminate|].
  cbn in H. apply andb_true_iff in H as [_ H]. apply IH in H. cbn. lia.
Qed.

(** A unit no class of the pattern accepts cuts the text in two parts that
    are cleaned independently. *)
Lemma matches_at_app_sep (pat : pattern) (c : Z) (b : jsstring) :
  (forall p, In p pat -> p c = false) ->
  forall a, matches_at pat (a ++ c :: b) = matches_at pat a.
Proof.
  induction pat as [|p pat IH]; intros Hc a; [reflexivity|].
  destruct a as [|x a]; cbn [app matches_at].
  - rewrite (Hc p) by now left. reflexivity.
  - rewrite IH; [reflexivity|]. intros q Hq. apply Hc. now right.
Qed.

Lemma skipn_app_le {A} (n : nat) (a b : list A) :
  (n <= List.length a)%nat -> skipn n (a ++ b) = skipn n a ++ b.
Proof.
  intros H. rewrite skipn_app.
  replace (n - List.length a)%nat with 0%nat by lia. reflexivity.
Qed.

Lemma remove_all_app_sep (pat : pattern) (c : Z) (b : jsstring) :
  pat <> [] ->
  (forall p, In p pat -> p c = false) ->
  forall a,
    remove_all pat (a ++ c :: b) = remove_all pat a ++ c :: remove_all pat b.
Proof.
  intros Hne Hc a.
  remember (List.length a) as n eqn:Hn. revert a Hn.
  induction n as [n IH] using lt_wf_ind. intros a Hn.
  destruct a as [|x a].
  - cbn [app]. rewrite remove_all_cons.
    replace (matches_at pat (c :: b)) with false; [reflexivity|].
    symmetry. destruct pat as [|p pat]; [contradiction|].
    cbn [matches_at]. rewrite (Hc p) by now left. reflexivity.
  - cbn [app]. rewrite !remove_all_cons.
    change (x :: a ++ c :: b) with ((x :: a) ++ c :: b).
    rewrite matches_at_app_sep by assumption.
    destruct (matches_at pat (x :: a)) eqn:E.
    + apply matches_at_length in E. cbn [List.length] in E.
      rewrite skipn_app_le by lia.
      apply (IH (List.length (skipn (Nat.pred (List.length pat)) a))).
      * rewrite length_skipn. subst n. cbn. lia.
      * reflexivity.
    + cbn [app]. f_equal. apply (IH (List.length a)); [subst n; cbn; lia|reflexivity].
Qed.

Lemma skipn_In (x : Z) (k : nat) : forall s, In x (skipn k s) -> In x s.
Proof.
  induction k as [|k IH]; intros s H; [exact H|].
  destruct s as [|d s]; [exact H|]. right. now apply IH.
Qed.

Lemma remove_all_In (pat : pattern) (x : Z) : forall s,
  In x (remove_all pat s) -> In x s.
Proof.
  intros s. remember (List.length s) as n eqn:Hn. revert s Hn.
  induction n as [n IH] using lt_wf_ind. intros s Hn.
  destruct s as [|c r]; [easy|].
  rewrite remove_all_cons. destruct (matches_at pat (c :: r)).
  - intros H. right.
    apply (IH (List.length (skipn (Nat.pred (List.length pat)) r))) in H.
    + exact (skipn_In _ _ _ H).
    + rewrite length_skipn. subst n. cbn. lia.
    + reflexivity.
  - intros [H|H]; [now left|]. right.
    apply (IH (List.length r)); [subst n; cbn; lia|reflexivity|exact H].
Qed.


Lemma fence_json_like : fence_like fence_json.
Proof.
  split.
  - eexists _, _. split; [reflexivity|]. intros c H. now apply Z.eqb_eq in H.
  - intros p Hp c Hc. unfold fence_json in Hp. cbn [In] in Hp.
    unfold plain, is_backtick, backtick in *.
    repeat (destruct Hp as [Hp|Hp]; [subst p; lia|]). contradiction.
Qed.

Lemma fence_like_fence : fence_like fence.
Proof.
  split.
  - eexists _, _. split; [reflexivity|]. intros c H. now apply Z.eqb_eq in H.
  - intros p Hp c Hc. unfold fence in Hp. cbn [In] in Hp.
    unfold plain, is_backtick, backtick in *.
    repeat (destruct Hp as [Hp|Hp]; [subst p; lia|]). contradiction.
Qed.

Section FenceLike.
Variable pat : pattern.
Hypothesis Hpat : fence_like pat.

Lemma fence_like_nonempty : pat <> [].
Proof. destruct Hpat as [(p & pat' & -> & _) _]. discriminate. Qed.

Lemma fence_like_head (c : Z) (r : jsstring) :
  matches_at pat (c :: r) = true -> c = backtick.
Proof.
  destruct Hpat as [(p & pat' & -> & Hp) _]. cbn [matches_at].
  intros H. apply andb_true_iff in H as [H _]. now apply Hp.
Qed.

Lemma remove_all_cons_other (c : Z) (r : jsstring) :
  c <> backtick -> remove_all pat (c :: r) = c :: remove_all pat r.
Proof.
  intros Hc. rewrite remove_all_cons.
  destruct (matches_at pat (c :: r)) eqn:E; [|reflexivity].
  apply fence_like_head in E. contradiction.
Qed.

Lemma remove_all_app_other (a b : jsstring) :
  ~ In backtick a -> remove_all pat (a ++ b) = a ++ remove_all pat b.
Proof.
  induction a as [|x a IH]; intros Ha; [reflexivity|].
  cbn [app]. rewrite remove_all_cons_other by (intros ->; apply Ha; now left).
  rewrite IH; [reflexivity|]. intros H. apply Ha. now right.
Qed.

Lemma remove_all_without_backtick (s : jsstring) :
  ~ In backtick s -> remove_all pat s = s.
Proof.
  intros H. rewrite <- (app_nil_r s) at 1.
  rewrite remove_all_app_other by assumption. now rewrite app_nil_r.
Qed.

(** A match is a run of plain units. *)
Lemma matches_at_plain : forall s,
  matches_at pat s = true ->
  Forall (fun c => plain c = true) (firstn (List.length pat) s).
Proof.
  destruct Hpat as [_ Hplain]. clear Hpat. revert Hplain.
  induction pat as [|p pat' IH]; intros Hplain s H; [constructor|].
  destruct s as [|c r]; [discriminate|].
  cbn in H. apply andb_true_iff in H as [Hc H].
  cbn [List.length firstn]. constructor.
  - apply (Hplain p); [now left|exact Hc].
  - apply IH; [|exact H]. intros q Hq. apply Hplain. now right.
Qed.
End FenceLike.

(* ================================================================= *)
(** ** JSON text with fence markers removed

    A backtick can only stand inside a string literal of a JSON text, and a
    match of either pattern is a run of plain units there; removing the
    matches changes the values of some strings and nothing else. *)


Lemma lex_string_plain_cons (c : Z) (r : jsstring) :
  plain c = true ->
  lex_string (c :: r) =
    match lex_string r with
    | Some (str, rest) => Some (c :: str, rest)
    | None => None
    end.
Proof.
  unfold plain. intros H. cbn [lex_string].
  destruct (c =? 34); [discriminate|].
  destruct (c =? 92); [discriminate|].
  destruct (c <? 32); [discriminate|]. reflexivity.
Qed.

Lemma lex_string_plain_prefix (m s : jsstring) :
  Forall (fun c => plain c = true) m ->
  lex_string (m ++ s) =
    match lex_string s with
    | Some (str, rest) => Some (m ++ str, rest)
    | None => None
    end.
Proof.
  induction 1 as [|c m Hc _ IH]; cbn [app].
  - destruct (lex_string s) as [[str rest]|]; reflexivity.
  - rewrite lex_string_plain_cons by assumption. rewrite IH.
    destruct (lex_string s) as [[str rest]|]; reflexivity.
Qed.

Lemma lex_string_length : forall s str rest,
  lex_string s = Some (str, rest) -> (List.length rest < List.length s)%nat.
Proof.
  intros s. remember (List.length s) as n eqn:Hn. revert s Hn.
  induction n as [n IH] using lt_wf_ind. intros s Hn str rest.
  destruct s as [|c r]; [discriminate|]. cbn [lex_string].
  destruct (c =? 34).
  { intros H. injection H as _ <-. subst n. cbn. lia. }
  destruct (c =? 92).
  { destruct r as [|e r1]; [discriminate|].
    destruct (e =? 117).
    - destruct r1 as [|h1 [|h2 [|h3 [|h4 r2]]]]; try discriminate.
      destruct (_ && _); [|discriminate].
      destruct (lex_string r2) as [[str2 rest2]|] eqn:E; [|discriminate].
      intros H. injection H as _ <-.
      apply (IH (List.length r2)) in E; [|subst n; cbn; lia|reflexivity].
      subst n. cbn. lia.
    - destruct (simple_escape e); [|discriminate].
      destruct (lex_string r1) as [[str1 rest1]|] eqn:E; [|discriminate].
      intros H. injection H as _ <-.
      apply (IH (List.length r1)) in E; [|subst n; cbn; lia|reflexivity].
      subst n. cbn. lia. }
  destruct (c <? 32); [discriminate|].
  destruct (lex_string r) as [[str0 rest0]|] eqn:E; [|discriminate].
  intros H. injection H as _ <-.
  apply (IH (List.length r)) in E; [|subst n; cbn; lia|reflexivity].
  subst n. cbn. lia.
Qed.

Lemma simple_escape_not_backtick (e u : Z) :
  simple_escape e = Some u -> e <> backtick.
Proof. intros H ->. vm_compute in H. discriminate. Qed.

Lemma hex_digit_not_backtick (h : Z) : is_hex_digit h = true -> h <> backtick.
Proof.
  unfold is_hex_digit, is_digit, backtick. intros H ->. vm_compute in H.
  discriminate.
Qed.

Section FenceLikeJSON.
Variable pat : pattern.
Hypothesis Hpat : fence_like pat.

Lemma lex_string_remove_all : forall s str rest,
  lex_string s = Some (str, rest) ->
  exists str',
    lex_string (remove_all pat s) = Some (str', remove_all pat rest).
Proof.
  intros s. remember (List.length s) as n eqn:Hn. revert s Hn.
  induction n as [n IH] using lt_wf_ind. intros s Hn str rest Hlex.
  destruct s as [|c r]; [discriminate|].
  destruct (matches_at pat (c :: r)) eqn:Em.
  - (* a match: plain units of the string *)
    pose proof (matches_at_plain pat Hpat _ Em) as Hplain.
    pose proof (matches_at_length _ _ Em) as Hlen.
    pose proof (fence_like_nonempty pat Hpat) as Hne.
    rewrite remove_all_cons, Em.
    assert (Hk : skipn (List.length pat) (c :: r)
                 = skipn (Nat.pred (List.length pat)) r)
      by (destruct pat; [contradiction|reflexivity]).
    rewrite <- (firstn_skipn (List.length pat) (c :: r)) in Hlex.
    rewrite lex_string_plain_prefix in Hlex by assumption.
    rewrite Hk in Hlex.
    destruct (lex_string (skipn (Nat.pred (List.length pat)) r))
      as [[str2 rest2]|] eqn:E; [|discriminate].
    injection Hlex as _ <-.
    apply (IH (List.length (skipn (Nat.pred (List.length pat)) r))
             ltac:(rewrite length_skipn; subst n; cbn; lia) _ eq_refl _ _ E).
  - rewrite remove_all_cons, Em. revert Hlex. cbn [lex_string].
    destruct (c =? 34) eqn:E34.
    { intros H. injection H as _ <-. eexists. reflexivity. }
    destruct (c =? 92) eqn:E92.
    { destruct r as [|e r1]; [discriminate|].
      destruct (e =? 117) eqn:E117.
      - destruct r1 as [|h1 [|h2 [|h3 [|h4 r2]]]]; try discriminate.
        destruct (is_hex_digit h1 && is_hex_digit h2 && is_hex_digit h3
                  && is_hex_digit h4) eqn:Eh; [|discriminate].
        apply andb_true_iff in Eh as [Eh H4].
        apply andb_true_iff in Eh as [Eh H3].
        apply andb_true_iff in Eh as [H1 H2].
        destruct (lex_string r2) as [[str2 rest2]|] eqn:E; [|discriminate].
        intros H. injection H as _ <-.
        apply Z.eqb_eq in E117. subst e.
        rewrite (remove_all_cons_other pat Hpat 117) by (unfold backtick; lia).
        rewrite !(remove_all_cons_other pat Hpat)
          by now apply hex_digit_not_backtick.
        rewrite Z.eqb_refl. rewrite H1, H2, H3, H4. cbn [andb].
        destruct (IH (List.length r2) ltac:(subst n; cbn; lia) _ eq_refl _ _ E)
          as (str' & ->).
        eexists. reflexivity.
      - destruct (simple_escape e) as [u|] eqn:Ee; [|discriminate].
        destruct (lex_string r1) as [[str1 rest1]|] eqn:E; [|discriminate].
        intros H. injection H as _ <-.
        rewrite (remove_all_cons_other pat Hpat e)
          by (eapply simple_escape_not_backtick; eassumption).
        rewrite E117, Ee.
        destruct (IH (List.length r1) ltac:(subst n; cbn; lia) _ eq_refl _ _ E)
          as (str' & ->).
        eexists. reflexivity. }
    destruct (c <? 32); [discriminate|].
    destruct (lex_string r) as [[str0 rest0]|] eqn:E; [|discriminate].
    intros H. injection H as _ <-.
    destruct (IH (List.length r) ltac:(subst n; cbn; lia) _ eq_refl _ _ E)
      as (str' & ->).
    eexists. reflexivity.
Qed.
End FenceLikeJSON.

Lemma after_prefix_spec (pre : jsstring) : forall s rest,
  after_prefix pre s = Some rest -> s = pre ++ rest.
Proof.
  induction pre as [|a pre IH]; intros s rest; cbn [after_prefix app].
  - now intros [= ->].
  - destruct s as [|b s]; [discriminate|].
    destruct (a =? b) eqn:E; [|discriminate].
    apply Z.eqb_eq in E. subst b. intros H. now rewrite (IH _ _ H).
Qed.

Lemma after_prefix_app (pre rest : jsstring) :
  after_prefix pre (pre ++ rest) = Some rest.
Proof.
  induction pre as [|a pre IH]; cbn [after_prefix app]; [reflexivity|].
  now rewrite Z.eqb_refl.
Qed.

Lemma span_spec (p : Z -> bool) : forall s a b,
  span p s = (a, b) ->
  s = a ++ b
  /\ Forall (fun c => p c = true) a
  /\ match b with [] => True | d :: _ => p d = false end.
Proof.
  induction s as [|c s IH]; intros a b; cbn [span].
  - intros [= <- <-]. repeat split. constructor.
  - destruct (p c) eqn:E.
    + destruct (span p s) as [a0 b0]. intros [= <- <-].
      destruct (IH _ _ eq_refl) as (-> & Ha & Hb).
      repeat split; [now constructor|exact Hb].
    + intros [= <- <-]. repeat split; [constructor|exact E].
Qed.

Lemma span_app_stop (p : Z -> bool) (a b : jsstring) :
  Forall (fun c => p c = true) a ->
  match b with [] => True | d :: _ => p d = false end ->
  span p (a ++ b) = (a, b).
Proof.
  intros Ha Hb. induction Ha as [|c a Hc _ IH]; cbn [app span].
  - destruct b as [|d b]; [reflexivity|]. cbn [span]. now rewrite Hb.
  - now rewrite Hc, IH.
Qed.

Lemma push_token_inv (t : token) (o : option (list token)) (ts : list token) :
  push_token t o = Some ts -> exists ts0, o = Some ts0 /\ ts = t :: ts0.
Proof.
  destruct o as [l|]; cbn; [|discriminate]. intros [= <-]. eauto.
Qed.

Lemma lex_head_not_backtick (f : nat) (c : Z) (r : jsstring) (ts : list token) :
  lex f (c :: r) = Some ts -> c <> backtick.
Proof.
  intros H ->. destruct f; [discriminate|]. vm_compute in H. discriminate.
Qed.

Lemma number_char_not_backtick (c : Z) : is_number_char c = true -> c <> backtick.
Proof. intros H ->. vm_compute in H. discriminate. Qed.

Lemma Forall_not_backtick (p : Z -> bool) (a : jsstring) :
  (forall c, p c = true -> c <> backtick) ->
  Forall (fun c => p c = true) a -> ~ In backtick a.
Proof.
  intros Hp Ha Hin. rewrite Forall_forall in Ha.
  apply (Hp backtick); [now apply Ha|reflexivity].
Qed.

Section FenceLikeLex.
Variable pat : pattern.
Hypothesis Hpat : fence_like pat.

Lemma lex_remove_all (f : nat) : forall s ts,
  lex f s = Some ts ->
  exists ts',
    lex f (remove_all pat s) = Some ts' /\ Forall2 token_sim ts ts'.
Proof.
  induction f as [|f IH]; intros s ts Hlex.
  - destruct s as [|c r]; [|discriminate]. injection Hlex as <-.
    exists []. split; [reflexivity|constructor].
  - destruct s as [|c r].
    { injection Hlex as <-. exists []. split; [reflexivity|constructor]. }
    pose proof (lex_head_not_backtick _ _ _ _ Hlex) as Hc.
    rewrite (remove_all_cons_other pat Hpat c r Hc).
    revert Hlex. cbn [lex].
    assert (P : forall t rest,
               push_token t (lex f rest) = Some ts ->
               exists ts',
                 push_token t (lex f (remove_all pat rest)) = Some ts'
                 /\ Forall2 token_sim ts ts').
    { intros t rest H. apply push_token_inv in H as (ts0 & H & ->).
      destruct (IH _ _ H) as (ts0' & -> & Hsim).
      exists (t :: ts0'). split; [reflexivity|].
      constructor; [apply sim_same|exact Hsim]. }
    assert (K : forall kw t,
               ~ In backtick kw ->
               match after_prefix kw r with
               | Some rest => push_token t (lex f rest)
               | None => None
               end = Some ts ->
               exists ts',
                 match after_prefix kw (remove_all pat r) with
                 | Some rest => push_token t (lex f rest)
                 | None => None
                 end = Some ts' /\ Forall2 token_sim ts ts').
    { intros kw t Hkw H.
      destruct (after_prefix kw r) as [rest|] eqn:E; [|discriminate].
      apply after_prefix_spec in E. subst r.
      rewrite (remove_all_app_other pat Hpat) by assumption.
      rewrite after_prefix_app. now apply P. }
    destruct (is_json_ws c); [apply IH|].
    destruct (c =? 123); [apply P|].
    destruct (c =? 125); [apply P|].
    destruct (c =? 91); [apply P|].
    destruct (c =? 93); [apply P|].
    destruct (c =? 58); [apply P|].
    destruct (c =? 44); [apply P|].
    destruct (c =? 34).
    { destruct (lex_string r) as [[str rest]|] eqn:E; [|discriminate].
      destruct (lex_string_remove_all pat Hpat _ _ _ E) as (str' & ->).
      intros H. apply push_token_inv in H as (ts0 & H & ->).
      destruct (IH _ _ H) as (ts0' & -> & Hsim).
      exists (TStr str' :: ts0'). split; [reflexivity|].
      constructor; [apply sim_str|exact Hsim]. }
    destruct (c =? 116).
    { apply K. cbn. unfold backtick. lia. }
    destruct (c =? 102).
    { apply K. cbn. unfold backtick. lia. }
    destruct (c =? 110).
    { apply K. cbn. unfold backtick. lia. }
    destruct (is_number_char c) eqn:En; [|discriminate].
    destruct (span is_number_char (c :: r)) as [lexeme rest] eqn:Es.
    pose proof (span_spec _ _ _ _ Es) as (Heq & Hnum & Hstop).
    destruct (parse_number lexeme) as [x|] eqn:Ex; [|discriminate].
    intros H. apply push_token_inv in H as (ts0 & H & ->).
    destruct (IH _ _ H) as (ts0' & H' & Hsim).
    assert (Es' : span is_number_char (c :: remove_all pat r)
                  = (lexeme, remove_all pat rest)).
    { destruct lexeme as [|c0 lexeme].
      - cbn [app] in Heq. subst rest. cbn in Hstop. congruence.
      - cbn [app] in Heq. injection Heq as <- ->.
        rewrite (remove_all_app_other pat Hpat).
        + change (c :: lexeme ++ remove_all pat rest)
            with ((c :: lexeme) ++ remove_all pat rest).
          apply span_app_stop; [exact Hnum|].
          destruct rest as [|d rest']; [exact I|].
          rewrite (remove_all_cons_other pat Hpat d rest'
                     (lex_head_not_backtick _ _ _ _ H)).
          exact Hstop.
        + apply (Forall_not_backtick is_number_char);
            [exact number_char_not_backtick|].
          now inversion Hnum. }
    rewrite Es', Ex, H'.
    exists (TNum x :: ts0'). split; [reflexivity|].
    constructor; [apply sim_same|exact Hsim].
Qed.
End FenceLikeLex.

Lemma span_length (p : Z -> bool) (s a b : jsstring) :
  span p s = (a, b) -> (List.length b <= List.length s)%nat.
Proof.
  intros H. apply span_spec in H as (-> & _). rewrite length_app. lia.
Qed.

(** With fuel for every unit, the amount of fuel does not matter. *)
Lemma lex_fuel (f1 : nat) : forall f2 s,
  (List.length s <= f1)%nat -> (List.length s <= f2)%nat ->
  lex f1 s = lex f2 s.
Proof.
  induction f1 as [|f1 IH]; intros f2 s H1 H2.
  - destruct s; [|cbn in H1; lia]. destruct f2; reflexivity.
  - destruct s as [|c r]; [destruct f2; reflexivity|].
    destruct f2 as [|f2]; [cbn in H2; lia|].
    cbn [List.length] in H1, H2. cbn [lex].
    assert (R : forall rest, (List.length rest <= List.length r)%nat ->
                             lex f1 rest = lex f2 rest)
      by (intros rest Hr; apply IH; lia).
    assert (K : forall kw t,
               match after_prefix kw r with
               | Some rest => push_token t (lex f1 rest)
               | None => None
               end =
               match after_prefix kw r with
               | Some rest => push_token t (lex f2 rest)
               | None => None
               end).
    { intros kw t. destruct (after_prefix kw r) as [rest|] eqn:E; [|reflexivity].
      apply after_prefix_spec in E. rewrite R; [reflexivity|].
      subst r. rewrite length_app. lia. }
    rewrite (R r) by lia. rewrite !K.
    destruct (lex_string r) as [[str rest]|] eqn:E.
    + apply lex_string_length in E. rewrite (R rest) by lia.
      destruct (span is_number_char (c :: r)) as [lexeme rest'] eqn:Es.
      destruct (is_number_char c) eqn:En.
      * cbn [span] in Es. rewrite En in Es.
        destruct (span is_number_char r) as [a0 b0] eqn:Es0.
        injection Es as <- <-. apply span_length in Es0.
        rewrite (R b0) by lia. reflexivity.
      * reflexivity.
    + destruct (span is_number_char (c :: r)) as [lexeme rest'] eqn:Es.
      destruct (is_number_char c) eqn:En.
      * cbn [span] in Es. rewrite En in Es.
        destruct (span is_number_char r) as [a0 b0] eqn:Es0.
        injection Es as <- <-. apply span_length in Es0.
        rewrite (R b0) by lia. reflexivity.
      * reflexivity.
Qed.

(** The parser never looks into a string: it acts the same on tokens and
    on values whose strings are blanked. *)
Lemma token_sim_shape (ts ts' : list token) :
  Forall2 token_sim ts ts' -> map shape ts = map shape ts'.
Proof.
  induction 1 as [|t t' ts ts' Ht _ IH]; [reflexivity|].
  cbn [map]. rewrite IH. f_equal. destruct Ht; reflexivity.
Qed.

Lemma parse_shape (n : nat) :
  (forall ts, parse_value n (map shape ts)
              = shaped vshape (parse_value n ts))
  /\ (forall ts, parse_elements n (map shape ts)
                 = shaped (map vshape) (parse_elements n ts))
  /\ (forall ts, parse_members n (map shape ts)
                 = shaped (map (fun kv => ([], vshape (snd kv))))
                     (parse_members n ts)).
Proof.
  induction n as [|n (IHv & IHe & IHm)]; [repeat split|].
  split; [|split]; intros ts.
  - destruct ts as [|t r]; [reflexivity|].
    destruct t; try reflexivity.
    + (* an object *)
      destruct r as [|t2 r2].
      * destruct n; reflexivity.
      * pose proof (IHm (t2 :: r2)) as E. cbn [map] in E.
        destruct t2; cbn [map shape parse_value] in *; try reflexivity;
          rewrite E;
          match goal with
          | |- context [parse_members n ?l] =>
              destruct (parse_members n l) as [[ms rest]|]; reflexivity
          end.
    + (* an array *)
      destruct r as [|t2 r2].
      * destruct n as [|[|n']]; reflexivity.
      * pose proof (IHe (t2 :: r2)) as E. cbn [map] in E.
        destruct t2; cbn [map shape parse_value] in *; try reflexivity;
          rewrite E;
          match goal with
          | |- context [parse_elements n ?l] =>
              destruct (parse_elements n l) as [[xs rest]|]; reflexivity
          end.
  - cbn [parse_elements]. rewrite IHv.
    destruct (parse_value n ts) as [[v rest]|]; [|reflexivity].
    cbn [shaped]. destruct rest as [|t r]; [reflexivity|].
    destruct t; try reflexivity.
    cbn [map shape]. rewrite IHe.
    destruct (parse_elements n r) as [[vs r']|]; reflexivity.
  - destruct ts as [|t r]; [reflexivity|].
    destruct t; try reflexivity.
    destruct r as [|t2 r2]; [reflexivity|].
    destruct t2; try reflexivity.
    cbn [map shape parse_members]. rewrite IHv.
    destruct (parse_value n r2) as [[v rest]|]; [|reflexivity].
    cbn [shaped]. destruct rest as [|t3 r3]; [reflexivity|].
    destruct t3; try reflexivity.
    cbn [map shape]. rewrite IHm.
    destruct (parse_members n r3) as [[ms r']|]; reflexivity.
Qed.

Lemma remove_all_length (pat : pattern) (s : jsstring) :
  (List.length (remove_all pat s) <= List.length s)%nat.
Proof.
  remember (List.length s) as n eqn:Hn. revert s Hn.
  induction n as [n IH] using lt_wf_ind. intros s Hn.
  destruct s as [|c r]; [cbn; lia|].
  rewrite remove_all_cons. destruct (matches_at pat (c :: r)).
  - assert (L : (List.length (skipn (Nat.pred (List.length pat)) r)
                 <= List.length r)%nat) by (rewrite length_skipn; lia).
    pose proof (IH (List.length (skipn (Nat.pred (List.length pat)) r))
                  ltac:(subst n; cbn [List.length]; lia) _ eq_refl) as I.
    subst n. cbn [List.length]. lia.
  - specialize (IH (List.length r) ltac:(subst n; cbn; lia) r eq_refl).
    subst n. cbn. lia.
Qed.

Section FenceLikeParse.
Variable pat : pattern.
Hypothesis Hpat : fence_like pat.

(** Removing the matches of a fence pattern from a JSON text leaves a
    JSON text, of the same structure up to the values of its strings. *)
Lemma JSON_parse_remove_all (s : jsstring) (v : JSValue) :
  JSON_parse s = Some v ->
  exists v',
    JSON_parse (remove_all pat s) = Some v' /\ vshape v' = vshape v.
Proof.
  unfold JSON_parse. intros H.
  destruct (lex (List.length s) s) as [ts|] eqn:El; [|discriminate].
  destruct (lex_remove_all pat Hpat _ _ _ El) as (ts' & El' & Hsim).
  pose proof (remove_all_length pat s) as Hlen.
  rewrite (lex_fuel _ (List.length s) _ (le_n _) Hlen), El'.
  pose proof (token_sim_shape _ _ Hsim) as Hshape.
  assert (Hl : List.length ts' = List.length ts)
    by (apply (f_equal (@List.length token)) in Hshape;
        now rewrite !length_map in Hshape).
  rewrite Hl.
  destruct (parse_value (2 * List.length ts + 2) ts) as [[v0 rest]|] eqn:Ep;
    [|discriminate].
  destruct rest as [|t rest]; [|discriminate]. injection H as ->.
  pose proof (proj1 (parse_shape (2 * List.length ts + 2)) ts) as P.
  pose proof (proj1 (parse_shape (2 * List.length ts + 2)) ts') as P'.
  rewrite Ep in P. rewrite <- Hshape, P in P'. cbn [shaped map] in P'.
  destruct (parse_value (2 * List.length ts + 2) ts') as [[v' rest']|];
    [|discriminate].
  cbn [shaped] in P'. injection P' as Hv Hrest.
  destruct rest'; [|discriminate].
  exists v'. split; [reflexivity|now symmetry].
Qed.
End FenceLikeParse.

(* ================================================================= *)
(** ** Searching and slicing *)

Lemma indexOf_bounds (c : Z) (s : jsstring) :
  -1 <= indexOf s c < Z.of_nat (List.length s).
Proof.
  induction s as [|d s IH]; cbn [indexOf List.length]; [lia|].
  destruct (d =? c); [lia|]. destruct (indexOf s c =? -1); lia.
Qed.

Lemma lastIndexOf_bounds (c : Z) (s : jsstring) :
  -1 <= lastIndexOf s c < Z.of_nat (List.length s).
Proof.
  induction s as [|d s IH]; cbn [lastIndexOf List.length]; [lia|].
  destruct (lastIndexOf s c =? -1); [|lia]. destruct (d =? c); lia.
Qed.

Lemma indexOf_absent (c : Z) (s : jsstring) : ~ In c s -> indexOf s c = -1.
Proof.
  induction s as [|d s IH]; intros H; [reflexivity|]. cbn [indexOf].
  destruct (d =? c) eqn:E; [apply Z.eqb_eq in E; exfalso; apply H; now left|].
  rewrite IH by (intros K; apply H; now right). reflexivity.
Qed.

Lemma lastIndexOf_absent (c : Z) (s : jsstring) :
  ~ In c s -> lastIndexOf s c = -1.
Proof.
  induction s as [|d s IH]; intros H; [reflexivity|]. cbn [lastIndexOf].
  rewrite IH by (intros K; apply H; now right). cbn.
  destruct (d =? c) eqn:E; [apply Z.eqb_eq in E; exfalso; apply H; now left|].
  reflexivity.
Qed.

Lemma indexOf_first (c : Z) (a b : jsstring) :
  ~ In c a -> indexOf (a ++ c :: b) c = Z.of_nat (List.length a).
Proof.
  induction a as [|d a IH]; intros H; cbn [app indexOf List.length].
  - now rewrite Z.eqb_refl.
  - destruct (d =? c) eqn:E; [apply Z.eqb_eq in E; exfalso; apply H; now left|].
    rewrite IH by (intros K; apply H; now right).
    destruct (Z.of_nat (List.length a) =? -1) eqn:E'; lia.
Qed.

Lemma lastIndexOf_last (c : Z) (a b : jsstring) :
  ~ In c b -> lastIndexOf (a ++ c :: b) c = Z.of_nat (List.length a).
Proof.
  intros H. induction a as [|d a IH]; cbn [app lastIndexOf List.length].
  - rewrite (lastIndexOf_absent c b H). cbn. now rewrite Z.eqb_refl.
  - rewrite IH. destruct (Z.of_nat (List.length a) =? -1) eqn:E'; lia.
Qed.

Lemma lastIndexOf_app_absent (c : Z) (a t : jsstring) :
  ~ In c t -> lastIndexOf (a ++ t) c = lastIndexOf a c.
Proof.
  intros H. induction a as [|d a IH]; cbn [app lastIndexOf].
  - now apply lastIndexOf_absent.
  - now rewrite IH.
Qed.

Lemma substring_middle (a m b : jsstring) :
  substring (a ++ m ++ b) (Z.of_nat (List.length a))
    (Z.of_nat (List.length a) + Z.of_nat (List.length m)) = m.
Proof.
  unfold substring. cbv zeta. rewrite !length_app.
  set (la := List.length a). set (lm := List.length m).
  set (lb := List.length b).
  replace (Z.min (Z.max (Z.of_nat la) 0) (Z.of_nat (la + (lm + lb))))
    with (Z.of_nat la) by lia.
  replace (Z.min (Z.max (Z.of_nat la + Z.of_nat lm) 0)
             (Z.of_nat (la + (lm + lb))))
    with (Z.of_nat (la + lm)) by lia.
  replace (Z.min (Z.of_nat la) (Z.of_nat (la + lm))) with (Z.of_nat la) by lia.
  replace (Z.max (Z.of_nat la) (Z.of_nat (la + lm)) - Z.of_nat la)
    with (Z.of_nat lm) by lia.
  rewrite !Nat2Z.id. unfold la, lm.
  rewrite skipn_app, skipn_all, Nat.sub_diag. cbn [skipn app].
  rewrite firstn_app, firstn_all, Nat.sub_diag. cbn [firstn]. apply app_nil_r.
Qed.

(** The slice, when the cleaned text has an opening brace before its last
    closing brace. *)
Lemma slice_between_braces (s pre mid post : jsstring) :
  s = pre ++ [123] ++ mid ++ [125] ++ post ->
  ~ In 123 pre -> ~ In 125 post ->
  (let firstBrace := indexOf s 123 in
   let lastBrace := lastIndexOf s 125 in
   if negb (firstBrace =? -1) && negb (lastBrace =? -1)
      && (firstBrace <? lastBrace)
   then substring s firstBrace (lastBrace + 1)
   else s) = [123] ++ mid ++ [125].
Proof.
  intros -> Hpre Hpost. cbv zeta.
  replace (indexOf (pre ++ [123] ++ mid ++ [125] ++ post) 123)
    with (Z.of_nat (List.length pre))
    by (symmetry; apply (indexOf_first 123 pre); exact Hpre).
  replace (lastIndexOf (pre ++ [123] ++ mid ++ [125] ++ post) 125)
    with (Z.of_nat (List.length (pre ++ [123] ++ mid))).
  2:{ symmetry. replace (pre ++ [123] ++ mid ++ [125] ++ post)
        with ((pre ++ [123] ++ mid) ++ 125 :: post)
        by (now rewrite <- !app_assoc).
      apply lastIndexOf_last. exact Hpost. }
  rewrite !length_app. cbn [List.length].
  destruct (Z.of_nat (List.length pre) =? -1) eqn:E1; [exfalso; lia|].
  destruct (Z.of_nat (List.length pre + (1 + List.length mid)) =? -1) eqn:E2;
    [exfalso; lia|].
  destruct (Z.of_nat (List.length pre)
            <? Z.of_nat (List.length pre + (1 + List.length mid))) eqn:E3;
    [|exfalso; lia].
  cbn [negb andb].
  replace (pre ++ [123] ++ mid ++ [125] ++ post)
    with (pre ++ ([123] ++ mid ++ [125]) ++ post)
    by (now rewrite <- !app_assoc).
  replace (Z.of_nat (List.length pre + (1 + List.length mid)) + 1)
    with (Z.of_nat (List.length pre)
          + Z.of_nat (List.length ([123] ++ mid ++ [125])))
    by (rewrite !length_app; cbn [List.length]; lia).
  apply substring_middle.
Qed.

(** No slice when a brace is missing, or when every closing brace comes
    before the first opening one. *)
Lemma no_slice (s : jsstring) :
  ~ In 123 s \/ ~ In 125 s
  \/ (exists a b, s = a ++ 123 :: b /\ ~ In 123 a /\ ~ In 125 b) ->
  (let firstBrace := indexOf s 123 in
   let lastBrace := lastIndexOf s 125 in
   if negb (firstBrace =? -1) && negb (lastBrace =? -1)
      && (firstBrace <? lastBrace)
   then substring s firstBrace (lastBrace + 1)
   else s) = s.
Proof.
  cbv zeta. intros [H|[H|(a & b & -> & Ha & Hb)]].
  - now rewrite (indexOf_absent _ _ H).
  - rewrite (lastIndexOf_absent _ _ H). cbn. now rewrite andb_false_r.
  - rewrite (indexOf_first 123 a b Ha).
    replace (lastIndexOf (a ++ 123 :: b) 125) with (lastIndexOf a 125).
    2:{ symmetry. apply lastIndexOf_app_absent. intros [K|K]; [lia|auto]. }
    pose proof (lastIndexOf_bounds 125 a).
    destruct (Z.of_nat (List.length a) <? lastIndexOf a 125) eqn:E;
      [exfalso; lia|].
    now rewrite andb_false_r.
Qed.

(* ================================================================= *)
(** ** No fence marker is left *)

Lemma starts_with_fence (s : jsstring) :
  starts_with [backtick; backtick; backtick] s = true <->
  (3 <= leading_backticks s)%nat.
Proof.
  unfold is_backtick.
  destruct s as [|a [|b [|c r]]]; cbn [starts_with leading_backticks];
    unfold is_backtick;
    repeat match goal with
           | |- context [backtick =? ?x] => rewrite (Z.eqb_sym backtick x)
           end.
  all: repeat match goal with
              | |- context [?x =? backtick] => destruct (x =? backtick)
              end;
    cbn; split; intros; try discriminate; try lia; reflexivity.
Qed.

Lemma matches_at_fence (s : jsstring) :
  matches_at fence s = starts_with [backtick; backtick; backtick] s.
Proof.
  unfold fence, is_backtick.
  destruct s as [|a [|b [|c r]]]; cbn [matches_at starts_with];
    repeat match goal with
           | |- context [backtick =? ?x] => rewrite (Z.eqb_sym backtick x)
           end; rewrite ?andb_false_r, ?andb_true_r; reflexivity.
Qed.

Lemma leading_remove_fence : forall s,
  leading_backticks (remove_all fence s) = (leading_backticks s mod 3)%nat.
Proof.
  intros s. remember (List.length s) as n eqn:Hn. revert s Hn.
  induction n as [n IH] using lt_wf_ind. intros s Hn.
  destruct s as [|c r]; [reflexivity|].
  rewrite remove_all_cons.
  destruct (matches_at fence (c :: r)) eqn:E.
  - pose proof E as E'. rewrite matches_at_fence in E'.
    destruct r as [|b [|d r2]]; try (cbn in E; rewrite ?andb_false_r in E; discriminate).
    cbn [fence List.length Nat.pred skipn].
    rewrite (IH (List.length r2) ltac:(subst n; cbn; lia) r2 eq_refl).
    cbn in E. unfold is_backtick in *.
    apply andb_true_iff in E as [Ec E]. apply andb_true_iff in E as [Eb E].
    apply andb_true_iff in E as [Ed _].
    cbn [leading_backticks]. unfold is_backtick. rewrite Ec, Eb, Ed.
    change (S (S (S (leading_backticks r2))))
      with (1 * 3 + leading_backticks r2)%nat.
    rewrite Nat.add_comm, Nat.Div0.mod_add. reflexivity.
  - cbn [leading_backticks].
    destruct (is_backtick c) eqn:Ec; [|reflexivity].
    rewrite (IH (List.length r) ltac:(subst n; cbn; lia) r eq_refl).
    rewrite matches_at_fence in E.
    assert (L : (leading_backticks (c :: r) < 3)%nat).
    { destruct (Nat.lt_ge_cases (leading_backticks (c :: r)) 3) as [L|L];
        [exact L|]. apply starts_with_fence in L. congruence. }
    cbn [leading_backticks] in L. rewrite Ec in L.
    rewrite !Nat.mod_small by lia. reflexivity.
Qed.

Lemma no_fence_left : forall s,
  includes (remove_all fence s) [backtick; backtick; backtick] = false.
Proof.
  intros s. remember (List.length s) as n eqn:Hn. revert s Hn.
  induction n as [n IH] using lt_wf_ind. intros s Hn.
  destruct s as [|c r]; [reflexivity|].
  pose proof (leading_remove_fence (c :: r)) as L.
  rewrite remove_all_cons in *.
  destruct (matches_at fence (c :: r)) eqn:E.
  - apply (IH (List.length (skipn (Nat.pred (List.length fence)) r)));
      [rewrite length_skipn; subst n; cbn; lia|reflexivity].
  - cbn [includes].
    rewrite (IH (List.length r) ltac:(subst n; cbn; lia) r eq_refl).
    rewrite orb_false_r.
    destruct (starts_with [backtick; backtick; backtick]
                (c :: remove_all fence r)) eqn:S3; [|reflexivity].
    apply starts_with_fence in S3. rewrite L in S3.
    pose proof (Nat.mod_upper_bound (leading_backticks (c :: r)) 3). lia.
Qed.

(* ================================================================= *)
(** ** Response normalization *)

Lemma brace_in_no_fence (c : Z) (pat : pattern) :
  c = 123 \/ c = 125 -> pat = fence_json \/ pat = fence ->
  forall p, In p pat -> p c = false.
Proof.
  intros Hc Hpat p Hp. unfold fence_json, fence, is_backtick, backtick in Hpat.
  destruct Hpat; subst pat; cbn [In] in Hp;
    repeat (destruct Hp as [Hp|Hp]; [subst p; lia|]); contradiction.
Qed.

Lemma strip_fences_app_brace (c : Z) (a b : jsstring) :
  c = 123 \/ c = 125 ->
  strip_fences (a ++ c :: b) = strip_fences a ++ c :: strip_fences b.
Proof.
  intros Hc. unfold strip_fences.
  rewrite (remove_all_app_sep fence_json c b);
    [|discriminate|apply brace_in_no_fence; auto].
  rewrite (remove_all_app_sep fence c);
    [|discriminate|apply brace_in_no_fence; auto].
  reflexivity.
Qed.

Lemma strip_fences_In (x : Z) (s : jsstring) : In x (strip_fences s) -> In x s.
Proof. intros H. now apply remove_all_In, remove_all_In in H. Qed.

Lemma strip_fences_without_backtick (s : jsstring) :
  ~ In backtick s -> strip_fences s = s.
Proof.
  intros H. unfold strip_fences.
  rewrite (remove_all_without_backtick _ fence_json_like) by assumption.
  now apply (remove_all_without_backtick _ fence_like_fence).
Qed.

Lemma JSON_parse_strip_fences (s : jsstring) (v : JSValue) :
  JSON_parse s = Some v ->
  exists v', JSON_parse (strip_fences s) = Some v' /\ vshape v' = vshape v.
Proof.
  intros H. unfold strip_fences.
  destruct (JSON_parse_remove_all _ fence_json_like _ _ H) as (v1 & H1 & E1).
  destruct (JSON_parse_remove_all _ fence_like_fence _ _ H1) as (v2 & H2 & E2).
  exists v2. split; [exact H2|congruence].
Qed.

Lemma normalize_content_prose (pre mid post : jsstring) :
  ~ In 123 pre -> ~ In 125 post ->
  normalize_content (pre ++ [123] ++ mid ++ [125] ++ post)
    = strip_fences ([123] ++ mid ++ [125]).
Proof.
  intros Hpre Hpost. unfold normalize_content.
  rewrite (slice_between_braces _ (strip_fences pre) (strip_fences mid)
             (strip_fences post)).
  - change (strip_fences ([123] ++ mid ++ [125]))
      with (strip_fences ([] ++ 123 :: mid ++ 125 :: [])).
    rewrite (strip_fences_app_brace 123 []) by auto.
    rewrite (strip_fences_app_brace 125 mid []) by auto. reflexivity.
  - change (pre ++ [123] ++ mid ++ [125] ++ post)
      with (pre ++ 123 :: mid ++ 125 :: post).
    rewrite (strip_fences_app_brace 123 pre) by auto.
    rewrite (strip_fences_app_brace 125 mid) by auto. reflexivity.
  - intros H. apply Hpre. now apply strip_fences_In.
  - intros H. apply Hpost. now apply strip_fences_In.
Qed.

(** C5.  Normalization removes the fence markers, so that none is left, and
    cuts the text to the span from the first opening brace to the last
    closing brace, when both are there in that order, and leaves it whole
    otherwise.  The fenced sample content gives the chart data [1,2,3], and
    a JSON object with prose before its opening brace and after its closing
    brace still parses: to the same value when it holds no backtick, and in
    any case to a value of the same structure. *)
Theorem C5_fences_and_prose_are_tolerated :
  (forall content, includes (strip_fences content) (lit "```") = false)
  /\ (forall content pre mid post,
        strip_fences content = pre ++ [123] ++ mid ++ [125] ++ post ->
        ~ In 123 pre -> ~ In 125 post ->
        normalize_content content = [123] ++ mid ++ [125])
  /\ (forall content,
        ~ In 123 (strip_fences content) \/ ~ In 125 (strip_fences content)
        \/ (exists a b, strip_fences content = a ++ 123 :: b
                        /\ ~ In 123 a /\ ~ In 125 b) ->
        normalize_content content = strip_fences content)
  /\ (normalize_content fenced_content
        = lit "{" ++ quoted (lit "chartPoints") ++ lit ":[1,2,3]}"
      /\ obind (parse_content (JString fenced_content)) build_result
        = Return sample_result
      /\ chartData sample_result
        = JArray [JNumber (num 1); JNumber (num 2); JNumber (num 3)])
  /\ (forall pre mid post v,
        ~ In 123 pre -> ~ In 125 post ->
        JSON_parse ([123] ++ mid ++ [125]) = Some v ->
        (exists data,
           parse_content (JString (pre ++ [123] ++ mid ++ [125] ++ post))
             = Return data
           /\ vshape data = vshape v)
        /\ (~ In backtick mid ->
            parse_content (JString (pre ++ [123] ++ mid ++ [125] ++ post))
              = Return v)).
Proof.
  split; [|split; [|split; [|split]]].
  - intros content. unfold strip_fences. apply no_fence_left.
  - intros content pre mid post Hs Hpre Hpost.
    exact (slice_between_braces (strip_fences content) pre mid post
             Hs Hpre Hpost).
  - intros content H. exact (no_slice (strip_fences content) H).
  - split; [vm_compute; reflexivity|]. split; [vm_compute; reflexivity|].
    reflexivity.
  - intros pre mid post v Hpre Hpost Hv. unfold parse_content.
    rewrite (normalize_content_prose pre mid post Hpre Hpost). split.
    + destruct (JSON_parse_strip_fences _ _ Hv) as (v' & -> & E).
      exists v'. split; [reflexivity|exact E].
    + intros Hb. rewrite strip_fences_without_backtick, Hv; [reflexivity|].
      cbn [app]. intros [K|K]; [unfold backtick in K; lia|].
      apply in_app_or in K as [K|[K|[]]]; [auto|unfold backtick in K; lia].
Qed.

Lemma C5_witness :
  exists data,
    parse_content
      (JString (lit "Here is the chart: " ++ [123]
                ++ (quoted (lit "chartPoints") ++ lit ":[7]") ++ [125]
                ++ lit " I hope this helps."))
      = Return data.
Proof.
  destruct (proj1 (proj2 (proj2 (proj2 (proj2 C5_fences_and_prose_are_tolerated)))
              (lit "Here is the chart: ")
              (quoted (lit "chartPoints") ++ lit ":[7]")
              (lit " I hope this helps.")
              (JObject [(lit "chartPoints", JArray [JNumber (num 7)])])
              ltac:(vm_compute; intuition discriminate)
              ltac:(vm_compute; intuition discriminate)
              ltac:(vm_compute; reflexivity)))
    as (data & H & _).
  exists data. exact H.
Defined.

(* ================================================================= *)
(** ** More on the request loop *)

Section MorePasses.
Variable server : nat -> FetchOutcome.
Variable req : Request.

Lemma pass_rejected_retry (m : Machine) (msg : jsstring) :
  server (calls m) = Rejected msg ->
  includes msg (lit "503") = false ->
  attempt m + 1 < retries ->
  pass server req m =
    (Return Continue,
     {| calls := S (calls m);
        trace := (trace m ++ [EvFetch req]) ++ [EvWait 2000];
        attempt := attempt m + 1;
        response := response m |}).
Proof.
  intros Hs Hinc Hlt. run_monad. rewrite Hs. settle. rewrite Hinc. settle.
  destruct (retries <=? attempt m + 1) eqn:E; [lia|]. reflexivity.
Qed.

Lemma pass_rejected_final (m : Machine) (msg : jsstring) :
  server (calls m) = Rejected msg ->
  includes msg (lit "503") = false ->
  retries <= attempt m + 1 ->
  pass server req m =
    (Throw (FetchFailure msg),
     {| calls := S (calls m);
        trace := trace m ++ [EvFetch req];
        attempt := attempt m + 1;
        response := response m |}).
Proof.
  intros Hs Hinc Hle. run_monad. rewrite Hs. settle. rewrite Hinc. settle.
  destruct (retries <=? attempt m + 1) eqn:E; [|lia]. reflexivity.
Qed.

Lemma pass_rejected_503 (m : Machine) (msg : jsstring) :
  server (calls m) = Rejected msg ->
  includes msg (lit "503") = true ->
  pass server req m =
    (Throw (FetchFailure msg),
     {| calls := S (calls m);
        trace := trace m ++ [EvFetch req];
        attempt := attempt m;
        response := response m |}).
Proof.
  intros Hs Hinc. run_monad. rewrite Hs. settle. rewrite Hinc. reflexivity.
Qed.

Lemma pass_http_error_503 (m : Machine) (r : Response) :
  server (calls m) = Responded r ->
  status r <> 503 ->
  ok r = false ->
  includes (httpErrorMessage (status r) (body r)) (lit "503") = true ->
  pass server req m =
    (Throw (Error (httpErrorMessage (status r) (body r))),
     {| calls := S (calls m);
        trace := trace m ++ [EvFetch req];
        attempt := attempt m;
        response := Some r |}).
Proof.
  intros Hs Hne Hok Hinc. run_monad. rewrite Hs. settle.
  destruct (status r =? 503) eqn:E; [lia|].
  rewrite Hok. settle. rewrite Hinc. reflexivity.
Qed.

(** What one pass does to the machine, whatever the server answers. *)
Lemma pass_spec (m : Machine) :
  match pass server req m with
  | (Return Continue, m') =>
      attempt m' = attempt m + 1 /\ attempt m + 1 < retries
      /\ calls m' = S (calls m)
      /\ exists w, (w = 2000 \/ w = 2000 * (attempt m + 1))
                   /\ trace m' = trace m ++ [EvFetch req; EvWait w]
  | (Return Break, m') =>
      calls m' = S (calls m) /\ trace m' = trace m ++ [EvFetch req]
      /\ exists r, response m' = Some r /\ server (calls m) = Responded r
                   /\ ok r = true
  | (Throw e, m') =>
      calls m' = S (calls m) /\ trace m' = trace m ++ [EvFetch req]
      /\ loop_error e
  | (OutOfFuel, _) => False
  end.
Proof.
  unfold loop_error. run_monad.
  destruct (server (calls m)) as [msg|r] eqn:Es; settle.
  - destruct (includes msg (lit "503")); settle; [eauto 6|].
    destruct (retries <=? attempt m + 1) eqn:E; settle; [eauto 6|].
    repeat split; [lia|]. exists 2000. rewrite <- app_assoc. auto.
  - destruct (status r =? 503) eqn:E503; settle.
    + destruct (retries <=? attempt m + 1) eqn:E; settle.
      * rewrite serviceUnavailable_has_503. eauto 8.
      * repeat split; [lia|]. exists (2000 * (attempt m + 1)).
        rewrite <- app_assoc. auto.
    + destruct (ok r) eqn:Eok; settle.
      * repeat split. exists r. auto.
      * destruct (includes _ _); settle; [eauto 9|].
        destruct (retries <=? attempt m + 1) eqn:E; settle; [eauto 9|].
        repeat split; [lia|]. exists 2000. rewrite <- app_assoc. auto.
Qed.

(** The loop, from a machine that has attempts left: it ends on a request,
    after waits that follow the attempt numbers, and it returns only at
    [break]. *)
Lemma request_loop_spec (f : nat) : forall m,
  attempt m < retries ->
  retries - attempt m < Z.of_nat f ->
  match request_loop f server req m with
  | (OutOfFuel, _) => False
  | (o, m') =>
      (exists ws,
         waits_from (attempt m + 1) ws
         /\ attempt m + Z.of_nat (List.length ws) < retries
         /\ trace m' = trace m ++ attempts_trace req ws
         /\ calls m' = (calls m + S (List.length ws))%nat)
      /\ match o with
         | Return _ => exists r, response m' = Some r /\ ok r = true
         | Throw e => loop_error e
         | OutOfFuel => False
         end
  end.
Proof.
  induction f as [|f IH]; intros m Ha Hf; [lia|].
  rewrite request_loop_unfold.
  destruct (attempt m <? retries) eqn:E; [|lia].
  pose proof (pass_spec m) as P.
  destruct (pass server req m) as [[[]|e|] m1].
  - destruct P as (Pc & Pt & r & Pr & _ & Pok). split; [|eauto].
    exists []. cbn [waits_from List.length attempts_trace flat_map app].
    repeat split; [lia|exact Pt|lia].
  - destruct P as (Pa & Plt & Pc & w & Pw & Pt).
    specialize (IH m1). rewrite Pa in IH.
    specialize (IH Plt ltac:(lia)).
    destruct (request_loop f server req m1) as [[u|e|] m2]; [| |exact IH].
    + destruct IH as ((ws & Hw & Hl & Ht & Hc) & Hr). split; [|exact Hr].
      exists (w :: ws). cbn [waits_from List.length].
      repeat split; [exact Pw|exact Hw|lia| |lia].
      rewrite Ht, Pt. unfold attempts_trace. cbn [flat_map].
      now rewrite <- !app_assoc.
    + destruct IH as ((ws & Hw & Hl & Ht & Hc) & Hr). split; [|exact Hr].
      exists (w :: ws). cbn [waits_from List.length].
      repeat split; [exact Pw|exact Hw|lia| |lia].
      rewrite Ht, Pt. unfold attempts_trace. cbn [flat_map].
      now rewrite <- !app_assoc.
  - destruct P as (Pc & Pt & Pe). split; [|exact Pe].
    exists []. cbn [waits_from List.length attempts_trace flat_map app].
    repeat split; [lia|exact Pt|lia].
  - exact P.
Qed.
End MorePasses.

Lemma waits_from_first (ws : list Z) :
  waits_from 1 ws -> (List.length ws < 3)%nat -> In ws wait_schedules.
Proof.
  unfold wait_schedules.
  destruct ws as [|w1 [|w2 [|w3 ws]]]; cbn [waits_from List.length In];
    intros H L; try lia.
  - auto.
  - destruct H as ([->| ->] & _); auto.
  - destruct H as ([->| ->] & [->| ->] & _); cbn; auto 6.
Qed.

Lemma handle_response_errors (r : Response) (e : exn) :
  handle_response r = Throw e ->
  e = SyntaxError \/ e = TypeError \/ e = Error emptyContentMessage
  \/ e = Error missingFieldMessage
  \/ exists s, e = Error (malformedMessage s).
Proof.
  unfold handle_response, response_data, response_content.
  destruct (JSON_parse (body r)) as [j|]; [|intros [= <-]; now left].
  unfold extract_content.
  destruct (nullish j); [intros [= <-]; right; now left|].
  cbn [obind].
  destruct (negb _); [intros [= <-]; do 2 right; now left|]. cbn [obind].
  unfold parse_content.
  destruct (opt_member _ _) as [| |b|x|s|xs|ms];
    try (intros [= <-]; right; now left).
  destruct (JSON_parse _) as [data|];
    [|intros [= <-]; do 4 right; now exists s].
  cbn [obind]. rewrite build_result_spec.
  destruct (isArray _); [discriminate|intros [= <-]; do 3 right; now left].
Qed.

(** X1.  Whatever the server does, a configured call ends, by returning or
    by throwing; its trace is a request followed by wait-and-request pairs,
    all for the same request, with one of four wait schedules: none,
    [2000], [2000, 2000] or [2000, 4000].  So there are at most three
    requests, never a wait after the last one, and at most six seconds of
    waiting. *)
Theorem X1_trace_of_every_call
  (server : nat -> FetchOutcome) (input : UserInput) (key base : jsstring) :
  apiKey input = Some key -> blank key = false ->
  apiBaseUrl input = Some base -> blank base = false ->
  fst (generateLifeAnalysis server input) <> OutOfFuel
  /\ exists ws,
       In ws wait_schedules
       /\ trace (snd (generateLifeAnalysis server input))
          = attempts_trace (request_of input key base) ws
       /\ calls (snd (generateLifeAnalysis server input))
          = S (List.length ws)
       /\ (List.length ws <= 2)%nat
       /\ fold_right Z.add 0 ws <= 6000.
Proof.
  intros Hk Hkb Hb Hbb.
  rewrite (generateLifeAnalysis_configured _ _ _ _ Hk Hkb Hb Hbb).
  rewrite run_request_unfold.
  pose proof (request_loop_spec server (request_of input key base)
                (S (Z.to_nat retries)) initial) as L.
  specialize (L ltac:(reflexivity) ltac:(reflexivity)).
  destruct (request_loop _ server _ initial) as [[u|e|] m]; [| |contradiction].
  - destruct L as ((ws & Hw & Hl & Ht & Hc) & r & Hr & _).
    rewrite Hr. cbn [fst snd]. split.
    + intros H. destruct (handle_response r) eqn:E; try discriminate.
      clear -E. unfold handle_response, response_data, response_content in E.
      destruct (JSON_parse (body r)) as [j|]; [|discriminate].
      unfold extract_content in E. destruct (nullish j); [discriminate|].
      cbn [obind] in E. destruct (negb _); [discriminate|]. cbn [obind] in E.
      unfold parse_content in E.
      destruct (opt_member _ _); try discriminate.
      destruct (JSON_parse _); [|discriminate]. cbn [obind] in E.
      rewrite build_result_spec in E. destruct (isArray _); discriminate.
    + cbn [attempt initial] in Hw, Hl.
      assert (Hin : In ws wait_schedules)
        by (apply waits_from_first; [exact Hw|unfold retries in Hl; lia]).
      exists ws. split; [exact Hin|]. split; [exact Ht|]. split; [exact Hc|].
      unfold wait_schedules in Hin. cbn [In] in Hin.
      destruct Hin as [<-|[<-|[<-|[<-|[]]]]]; cbn; split; lia.
  - destruct L as ((ws & Hw & Hl & Ht & Hc) & _).
    cbn [fst snd]. split; [discriminate|].
    cbn [attempt initial] in Hw, Hl.
    assert (Hin : In ws wait_schedules)
      by (apply waits_from_first; [exact Hw|unfold retries in Hl; lia]).
    exists ws. split; [exact Hin|]. split; [exact Ht|]. split; [exact Hc|].
    unfold wait_schedules in Hin. cbn [In] in Hin.
    destruct Hin as [<-|[<-|[<-|[<-|[]]]]]; cbn; split; lia.
Qed.

Lemma X1_witness :
  exists ws,
    In ws wait_schedules
    /\ trace (snd (generateLifeAnalysis (always busy) sample_input))
       = attempts_trace sample_request ws.
Proof.
  destruct (X1_trace_of_every_call (always busy) sample_input
              (lit "secret") (lit "https://x/"))
    as (_ & ws & Hin & Ht & _); try (vm_compute; reflexivity).
  exists ws. split; [exact Hin|exact Ht].
Defined.

(** X2.  The error branch placed after the loop for a missing response is
    never taken: no call fails with the unknown-error message. *)
Theorem X2_unknown_error_is_unreachable
  (server : nat -> FetchOutcome) (input : UserInput) :
  fst (generateLifeAnalysis server input) <> Throw (Error unknownMessage).
Proof.
  unfold generateLifeAnalysis, throw.
  assert (K : Throw (A:=LifeDestinyResult) (Error apiKeyMessage)
              <> Throw (Error unknownMessage))
    by (intros H; vm_compute in H; discriminate).
  assert (B : Throw (A:=LifeDestinyResult) (Error apiBaseUrlMessage)
              <> Throw (Error unknownMessage))
    by (intros H; vm_compute in H; discriminate).
  destruct (apiKey input) as [key|]; [|exact K].
  destruct (blank key); [exact K|].
  destruct (apiBaseUrl input) as [base|]; [|exact B].
  destruct (blank base); [exact B|].
  rewrite run_request_unfold.
  pose proof (request_loop_spec server (request_of input key base)
                (S (Z.to_nat retries)) initial) as L.
  specialize (L ltac:(reflexivity) ltac:(reflexivity)).
  destruct (request_loop _ server _ initial) as [[u|e|] m]; [| |contradiction].
  - destruct L as (_ & r & Hr & _). rewrite Hr. cbn [fst].
    intros H. apply handle_response_errors in H.
    destruct H as [H|[H|[H|[H|(s & H)]]]]; try discriminate;
      injection H as H; vm_compute in H; discriminate.
  - destruct L as (_ & [(msg & ->)|[(t & ->)|(c & t & ->)]]); cbn [fst];
      intros H; try discriminate; injection H as H;
      unfold serviceUnavailableMessage, httpErrorMessage in H;
      apply (f_equal (firstn 7)) in H; vm_compute in H; discriminate.
Qed.

Ltac enter_loop :=
  rewrite request_loop_unfold; cbn [attempt initial calls trace response];
  match goal with
  | |- context [if ?a <? retries then _ else _] =>
      replace (a <? retries) with true by (unfold retries; lia)
  end;
  cbv iota.

Ltac start_call Hk Hkb Hb Hbb :=
  rewrite (generateLifeAnalysis_configured _ _ _ _ Hk Hkb Hb Hbb);
  rewrite run_request_unfold;
  change (S (Z.to_nat retries)) with 4%nat.

(** X3.  A failure of the network call itself is retried after a fixed wait
    of 2000 ms: three rejections in a row, none with "503" in its message,
    make three requests and two such waits, and the call fails with the
    third rejection. *)
Theorem X3_network_failures_are_retried
  (server : nat -> FetchOutcome) (input : UserInput) (key base : jsstring)
  (msg1 msg2 msg3 : jsstring) :
  apiKey input = Some key -> blank key = false ->
  apiBaseUrl input = Some base -> blank base = false ->
  server 0%nat = Rejected msg1 -> includes msg1 (lit "503") = false ->
  server 1%nat = Rejected msg2 -> includes msg2 (lit "503") = false ->
  server 2%nat = Rejected msg3 -> includes msg3 (lit "503") = false ->
  fst (generateLifeAnalysis server input) = Throw (FetchFailure msg3)
  /\ trace (snd (generateLifeAnalysis server input))
     = attempts_trace (request_of input key base) [2000; 2000].
Proof.
  intros Hk Hkb Hb Hbb H1 I1 H2 I2 H3 I3.
  start_call Hk Hkb Hb Hbb.
  enter_loop. erewrite pass_rejected_retry; [|exact H1|exact I1|reflexivity].
  enter_loop. erewrite pass_rejected_retry; [|exact H2|exact I2|reflexivity].
  enter_loop.
  erewrite pass_rejected_final;
    [|exact H3|exact I3|cbn [attempt]; unfold retries; lia].
  split; reflexivity.
Qed.

Lemma X3_witness :
  fst (generateLifeAnalysis (outcomes [] offline) sample_input)
    = Throw (FetchFailure (lit "Failed to fetch")).
Proof.
  apply (X3_network_failures_are_retried (outcomes [] offline) sample_input
           (lit "secret") (lit "https://x/") (lit "Failed to fetch")
           (lit "Failed to fetch") (lit "Failed to fetch"));
    vm_compute; reflexivity.
Defined.

(** X4.  A rejection whose message contains "503" is taken for the
    exhausted-retries error and thrown again at once: one request, no
    wait, no retry. *)
Theorem X4_rejection_mentioning_503_is_not_retried
  (server : nat -> FetchOutcome) (input : UserInput) (key base msg : jsstring) :
  apiKey input = Some key -> blank key = false ->
  apiBaseUrl input = Some base -> blank base = false ->
  server 0%nat = Rejected msg -> includes msg (lit "503") = true ->
  fst (generateLifeAnalysis server input) = Throw (FetchFailure msg)
  /\ trace (snd (generateLifeAnalysis server input))
     = attempts_trace (request_of input key base) [].
Proof.
  intros Hk Hkb Hb Hbb H1 I1.
  start_call Hk Hkb Hb Hbb.
  enter_loop. erewrite pass_rejected_503; [|exact H1|exact I1].
  split; reflexivity.
Qed.

Lemma X4_witness :
  trace (snd (generateLifeAnalysis (outcomes [] proxy_down) sample_input))
    = attempts_trace sample_request [].
Proof.
  apply (X4_rejection_mentioning_503_is_not_retried (outcomes [] proxy_down)
           sample_input (lit "secret") (lit "https://x/")
           (lit "proxy answered 503"));
    vm_compute; reflexivity.
Defined.

(** X5.  A reply with an error status other than 503 is fatal at once only
    when its message, that is its status or body text, contains "503":
    then the call throws the HTTP error after one request and no wait. *)
Theorem X5_http_error_mentioning_503_is_fatal
  (server : nat -> FetchOutcome) (input : UserInput) (key base : jsstring)
  (r : Response) :
  apiKey input = Some key -> blank key = false ->
  apiBaseUrl input = Some base -> blank base = false ->
  server 0%nat = Responded r -> status r <> 503 -> ok r = false ->
  includes (httpErrorMessage (status r) (body r)) (lit "503") = true ->
  (exists e, fst (generateLifeAnalysis server input) = Throw e
             /\ HttpError (status r) (body r) e)
  /\ trace (snd (generateLifeAnalysis server input))
     = attempts_trace (request_of input key base) [].
Proof.
  intros Hk Hkb Hb Hbb H1 S1 O1 I1.
  start_call Hk Hkb Hb Hbb.
  enter_loop. erewrite pass_http_error_503; [|exact H1|exact S1|exact O1|exact I1].
  split; [|reflexivity]. eexists. split; reflexivity.
Qed.

Lemma X5_witness :
  trace (snd (generateLifeAnalysis (always relayed) sample_input))
    = attempts_trace sample_request [].
Proof.
  apply (X5_http_error_mentioning_503_is_fatal (always relayed) sample_input
           (lit "secret") (lit "https://x/") relayed);
    try (vm_compute; reflexivity).
  vm_compute. discriminate.
Defined.

(** X6.  Any other reply with an error status goes through the handler of
    network failures: three such replies make three requests with a wait of
    2000 ms after the first and after the second, and the call fails with
    the HTTP error of the third. *)
Theorem X6_http_errors_are_retried
  (server : nat -> FetchOutcome) (input : UserInput) (key base : jsstring)
  (r1 r2 r3 : Response) :
  apiKey input = Some key -> blank key = false ->
  apiBaseUrl input = Some base -> blank base = false ->
  server 0%nat = Responded r1 -> status r1 <> 503 -> ok r1 = false ->
  includes (httpErrorMessage (status r1) (body r1)) (lit "503") = false ->
  server 1%nat = Responded r2 -> status r2 <> 503 -> ok r2 = false ->
  includes (httpErrorMessage (status r2) (body r2)) (lit "503") = false ->
  server 2%nat = Responded r3 -> status r3 <> 503 -> ok r3 = false ->
  includes (httpErrorMessage (status r3) (body r3)) (lit "503") = false ->
  (exists e, fst (generateLifeAnalysis server input) = Throw e
             /\ HttpError (status r3) (body r3) e)
  /\ trace (snd (generateLifeAnalysis server input))
     = attempts_trace (request_of input key base) [2000; 2000].
Proof.
  intros Hk Hkb Hb Hbb H1 S1 O1 I1 H2 S2 O2 I2 H3 S3 O3 I3.
  start_call Hk Hkb Hb Hbb.
  enter_loop.
  erewrite pass_http_error_retry;
    [|exact H1|exact S1|exact O1|exact I1|reflexivity].
  enter_loop.
  erewrite pass_http_error_retry;
    [|exact H2|exact S2|exact O2|exact I2|reflexivity].
  enter_loop.
  erewrite pass_http_error_final;
    [|exact H3|exact S3|exact O3|exact I3|cbn [attempt]; unfold retries; lia].
  split; [|reflexivity]. eexists. split; reflexivity.
Qed.

Lemma X6_witness :
  trace (snd (generateLifeAnalysis (always forbidden) sample_input))
    = attempts_trace sample_request [2000; 2000].
Proof.
  apply (X6_http_errors_are_retried (always forbidden) sample_input
           (lit "secret") (lit "https://x/") forbidden forbidden forbidden);
    try (vm_compute; reflexivity); vm_compute; discriminate.
Defined.

(** X7.  The two kinds of retry share one attempt counter: after a network
    failure, a 503 reply is the second attempt and waits 2000 ms times 2,
    and the third request is the last one, here a success. *)
Theorem X7_backoff_counts_every_attempt
  (server : nat -> FetchOutcome) (input : UserInput) (key base msg : jsstring)
  (r2 r3 : Response) :
  apiKey input = Some key -> blank key = false ->
  apiBaseUrl input = Some base -> blank base = false ->
  server 0%nat = Rejected msg -> includes msg (lit "503") = false ->
  server 1%nat = Responded r2 -> status r2 = 503 ->
  server 2%nat = Responded r3 -> ok r3 = true ->
  fst (generateLifeAnalysis server input) = handle_response r3
  /\ trace (snd (generateLifeAnalysis server input))
     = attempts_trace (request_of input key base) [2000; 4000].
Proof.
  intros Hk Hkb Hb Hbb H1 I1 H2 S2 H3 O3.
  start_call Hk Hkb Hb Hbb.
  enter_loop. erewrite pass_rejected_retry; [|exact H1|exact I1|reflexivity].
  enter_loop. erewrite pass_503_retry; [|exact H2|exact S2|reflexivity].
  enter_loop. erewrite pass_ok; [|exact H3|exact O3].
  split; reflexivity.
Qed.

Lemma X7_witness :
  trace (snd (generateLifeAnalysis
                (outcomes [offline; Responded busy] (Responded good))
                sample_input))
    = attempts_trace sample_request [2000; 4000].
Proof.
  apply (X7_backoff_counts_every_attempt
           (outcomes [offline; Responded busy] (Responded good)) sample_input
           (lit "secret") (lit "https://x/") (lit "Failed to fetch") busy good);
    vm_compute; reflexivity.
Defined.

(** X8.  A first reply with a success status ends the loop: one request, no
    wait, and the outcome of the call is what the handling of that reply
    gives. *)
Theorem X8_success_at_first_attempt
  (server : nat -> FetchOutcome) (input : UserInput) (key base : jsstring)
  (r : Response) :
  apiKey input = Some key -> blank key = false ->
  apiBaseUrl input = Some base -> blank base = false ->
  server 0%nat = Responded r -> ok r = true ->
  fst (generateLifeAnalysis server input) = handle_response r
  /\ trace (snd (generateLifeAnalysis server input))
     = attempts_trace (request_of input key base) []
  /\ accepted server input (snd (generateLifeAnalysis server input)) r.
Proof.
  intros Hk Hkb Hb Hbb H1 O1.
  assert (L : request_loop 4 server (request_of input key base) initial
              = (Return tt,
                 {| calls := 1; trace := [EvFetch (request_of input key base)];
                    attempt := 0; response := Some r |})).
  { enter_loop. erewrite pass_ok; [|exact H1|exact O1]. reflexivity. }
  start_call Hk Hkb Hb Hbb. rewrite L. cbn [response fst snd trace].
  split; [reflexivity|]. split; [reflexivity|].
  exists key, base. repeat split; assumption.
Qed.

Lemma X8_witness :
  fst (generateLifeAnalysis (always good) sample_input) = handle_response good.
Proof.
  apply (X8_success_at_first_attempt (always good) sample_input
           (lit "secret") (lit "https://x/") good);
    vm_compute; reflexivity.
Defined.

(* ================================================================= *)
(** ** Validation and the request *)

(** X9.  The API key is checked first: when it is missing or blank the call
    fails with the message about the key, whatever the base URL is; the
    message about the base URL is for a usable key with a missing or blank
    base URL.  The two messages differ. *)
Theorem X9_key_is_checked_before_base_url
  (server : nat -> FetchOutcome) (input : UserInput) :
  (missing_or_blank (apiKey input) = true ->
   generateLifeAnalysis server input = (Throw (Error apiKeyMessage), initial))
  /\ (missing_or_blank (apiKey input) = false ->
      missing_or_blank (apiBaseUrl input) = true ->
      generateLifeAnalysis server input
        = (Throw (Error apiBaseUrlMessage), initial))
  /\ apiKeyMessage <> apiBaseUrlMessage.
Proof.
  unfold generateLifeAnalysis, throw, missing_or_blank.
  split; [|split].
  - destruct (apiKey input) as [key|]; [|reflexivity].
    rewrite blank_spec. now intros ->.
  - destruct (apiKey input) as [key|]; [|discriminate].
    rewrite blank_spec. intros ->.
    destruct (apiBaseUrl input) as [base|]; [|reflexivity].
    rewrite blank_spec. now intros ->.
  - intros H. vm_compute in H. discriminate.
Qed.

Lemma X9_witness :
  generateLifeAnalysis (always good)
    (with_credentials (Some (lit " ")) None)
    = (Throw (Error apiKeyMessage), initial).
Proof.
  apply (proj1 (X9_key_is_checked_before_base_url (always good)
                  (with_credentials (Some (lit " ")) None))).
  vm_compute. reflexivity.
Defined.

Lemma drop_while_repeat (k : nat) (t : jsstring) :
  drop_while is_slash (repeat 47 k ++ t) = drop_while is_slash t.
Proof. induction k as [|k IH]; [reflexivity|exact IH]. Qed.

Lemma drop_while_decompose (l : jsstring) :
  exists k, l = repeat 47 k ++ drop_while is_slash l.
Proof.
  induction l as [|c l (k & IH)]; [now exists 0%nat|].
  cbn [drop_while]. destruct (is_slash c) eqn:E.
  - exists (S k). unfold is_slash in E. apply Z.eqb_eq in E. subst c.
    cbn [repeat app]. now rewrite <- IH.
  - now exists 0%nat.
Qed.

Lemma drop_while_no_slash_ahead (l : jsstring) :
  forall t, drop_while is_slash l <> 47 :: t.
Proof.
  induction l as [|c l IH]; intros t; cbn [drop_while]; [discriminate|].
  destruct (is_slash c) eqn:E; [apply IH|].
  intros [= -> _]. discriminate.
Qed.

Lemma rev_repeat (c : Z) (k : nat) : rev (repeat c k) = repeat c k.
Proof.
  induction k as [|k IH]; [reflexivity|].
  cbn [repeat rev]. rewrite IH. clear IH.
  induction k as [|k IH]; [reflexivity|]. cbn [repeat app]. now rewrite IH.
Qed.

(** X10.  The base URL loses exactly the slashes that end it: it is the
    cleaned URL followed by slashes only, the cleaned URL does not end with
    a slash, and a text that does not end with a slash is recovered from
    any number of slashes put after it.  The request goes to the cleaned
    URL followed by /chat/completions. *)
Theorem X10_trailing_slashes_are_stripped :
  (forall base,
     (exists k, base = cleanBaseUrl base ++ repeat 47 k)
     /\ (forall t, cleanBaseUrl base <> t ++ [47]))
  /\ (forall s k,
        (forall t, s <> t ++ [47]) -> cleanBaseUrl (s ++ repeat 47 k) = s)
  /\ (forall input key base,
        url (request_of input key base)
          = cleanBaseUrl base ++ lit "/chat/completions").
Proof.
  unfold cleanBaseUrl, strip_trailing_slashes. split; [|split].
  - intros base. split.
    + destruct (drop_while_decompose (rev base)) as (k & H).
      exists k. apply (f_equal (@rev Z)) in H.
      rewrite rev_involutive, rev_app_distr, rev_repeat in H. exact H.
    + intros t H. apply (f_equal (@rev Z)) in H.
      rewrite rev_involutive, rev_app_distr in H. cbn in H.
      now apply drop_while_no_slash_ahead in H.
  - intros s k Hs. rewrite rev_app_distr, rev_repeat, drop_while_repeat.
    destruct (rev s) as [|c r] eqn:E; [now rewrite <- (rev_involutive s), E|].
    cbn [drop_while]. destruct (is_slash c) eqn:Ec.
    + exfalso. unfold is_slash in Ec. apply Z.eqb_eq in Ec. subst c.
      apply (Hs (rev r)). rewrite <- (rev_involutive s), E. reflexivity.
    + now rewrite <- E, rev_involutive.
  - reflexivity.
Qed.

Lemma X10_witness :
  cleanBaseUrl (lit "https://x" ++ repeat 47 3) = lit "https://x".
Proof.
  apply (proj1 (proj2 X10_trailing_slashes_are_stripped) (lit "https://x")
           3%nat).
  intros t H. apply (f_equal (@rev Z)) in H. rewrite rev_app_distr in H.
  vm_compute in H. discriminate.
Defined.

(** X11.  The model name: a name that is missing or blank gives the
    default gemini-3-pro-preview, any other name is used trimmed. *)
Theorem X11_model_name_falls_back (modelName : option jsstring) :
  (missing_or_blank modelName = true ->
   targetModel modelName = lit "gemini-3-pro-preview")
  /\ (forall s, modelName = Some s -> missing_or_blank modelName = false ->
        targetModel modelName = trim s /\ trim s <> []).
Proof.
  unfold targetModel, missing_or_blank. split.
  - destruct modelName as [s|]; [|reflexivity]. intros H.
    apply trim_nil_iff in H. rewrite H.
    now destruct (str_truthy s).
  - intros s -> H.
    assert (T : trim s <> []) by (intros K; apply trim_nil_iff in K; congruence).
    split; [|exact T].
    destruct s as [|c s]; [discriminate|]. cbn [str_truthy andb].
    destruct (trim (c :: s)); [contradiction|reflexivity].
Qed.

Lemma X11_witness :
  targetModel (Some (lit " gpt-4o ")) = trim (lit " gpt-4o ").
Proof.
  apply (proj2 (X11_model_name_falls_back (Some (lit " gpt-4o ")))
           (lit " gpt-4o ") eq_refl).
  vm_compute. reflexivity.
Defined.

(* ================================================================= *)
(** ** Replies that cannot be used *)

(** X12.  A reply whose first choice has no content, or a falsy one, makes
    the call fail with the empty-response message; that is so in
    particular when the reply has no choices member or an empty list of
    choices. *)
Theorem X12_empty_content_is_an_error
  (server : nat -> FetchOutcome) (input : UserInput) (m : Machine)
  (r : Response) (jsonResult : JSValue) :
  accepted server input m r ->
  JSON_parse (body r) = Some jsonResult ->
  nullish jsonResult = false ->
  (truthy (content_of jsonResult) = false ->
   fst (generateLifeAnalysis server input)
     = Throw (Error emptyContentMessage))
  /\ (get_member jsonResult (lit "choices") = JUndefined
      \/ get_member jsonResult (lit "choices") = JArray [] ->
      truthy (content_of jsonResult) = false).
Proof.
  intros Hacc Hjson Hnull. split.
  - intros Hc. rewrite (generateLifeAnalysis_accepted _ _ _ _ Hacc).
    unfold handle_response, response_data, response_content, extract_content.
    rewrite Hjson, Hnull. cbn [obind]. fold (content_of jsonResult).
    rewrite Hc. reflexivity.
  - unfold content_of. intros [-> | ->]; reflexivity.
Qed.

Lemma X12_witness :
  fst (generateLifeAnalysis (always hollow) sample_input)
    = Throw (Error emptyContentMessage).
Proof.
  apply (proj1 (X12_empty_content_is_an_error (always hollow) sample_input
                  (after_loop (always hollow) sample_input (lit "secret")
                     (lit "https://x/"))
                  hollow (JObject [])
                  (always_accepted hollow eq_refl) eq_refl eq_refl)).
  reflexivity.
Defined.

Lemma substring_from_0 (s : jsstring) (n : nat) :
  substring s 0 (Z.of_nat n) = firstn n s.
Proof.
  unfold substring. cbv zeta.
  set (len := List.length s).
  replace (Z.min (Z.max 0 0) (Z.of_nat len)) with 0 by lia.
  replace (Z.max (Z.of_nat n) 0) with (Z.of_nat n) by lia.
  replace (Z.min 0 (Z.min (Z.of_nat n) (Z.of_nat len))) with 0 by lia.
  replace (Z.max 0 (Z.min (Z.of_nat n) (Z.of_nat len)) - 0)
    with (Z.of_nat (Nat.min n len)) by lia.
  rewrite Nat2Z.id. cbn [Z.to_nat skipn].
  destruct (Nat.le_ge_cases n len) as [H|H].
  - now rewrite Nat.min_l.
  - rewrite Nat.min_r by assumption. unfold len.
    now rewrite firstn_all, firstn_all2.
Qed.

(** X13.  Content that does not parse after normalization makes the call
    fail with the format message, which quotes the first 50 units of the
    content as it was received, before any cleaning, followed by three
    dots. *)
Theorem X13_unparsable_content_is_quoted
  (server : nat -> FetchOutcome) (input : UserInput) (m : Machine)
  (r : Response) (content : jsstring) :
  accepted server input m r ->
  response_content r = Return (JString content) ->
  JSON_parse (normalize_content content) = None ->
  fst (generateLifeAnalysis server input)
    = Throw (Error (malformedMessage content))
  /\ malformedMessage content
     = lit "模型返回的数据格式无法解析。请重试。" ++ [10] ++ lit "原始数据片段: "
       ++ firstn 50 content ++ lit "..."
  /\ includes (malformedMessage content) (firstn 50 content) = true.
Proof.
  intros Hacc Hc Hp. split; [|split].
  - rewrite (generateLifeAnalysis_accepted _ _ _ _ Hacc).
    unfold handle_response, response_data. rewrite Hc. cbn [obind parse_content].
    rewrite Hp. reflexivity.
  - unfold malformedMessage.
    change (substring content 0 50) with (substring content 0 (Z.of_nat 50)).
    now rewrite substring_from_0.
  - unfold malformedMessage.
    change (substring content 0 50) with (substring content 0 (Z.of_nat 50)).
    rewrite substring_from_0.
    do 3 apply includes_app_r. apply includes_self_prefix.
Qed.

Lemma X13_witness :
  fst (generateLifeAnalysis (always garbled) sample_input)
    = Throw (Error (malformedMessage (lit "sorry, no chart today"))).
Proof.
  apply (X13_unparsable_content_is_quoted (always garbled) sample_input
           (after_loop (always garbled) sample_input (lit "secret")
              (lit "https://x/"))
           garbled (lit "sorry, no chart today")
           (always_accepted garbled eq_refl));
    vm_compute; reflexivity.
Defined.

(** X14.  Content that is truthy but not a string (a number, true, a list
    or an object) has no string methods: the call fails with the engine's
    TypeError, not with the format message. *)
Theorem X14_content_that_is_not_a_string
  (server : nat -> FetchOutcome) (input : UserInput) (m : Machine)
  (r : Response) (content : JSValue) :
  accepted server input m r ->
  response_content r = Return content ->
  (forall s, content <> JString s) ->
  fst (generateLifeAnalysis server input) = Throw TypeError.
Proof.
  intros Hacc Hc Hs.
  rewrite (generateLifeAnalysis_accepted _ _ _ _ Hacc).
  unfold handle_response, response_data. rewrite Hc. cbn [obind].
  destruct content; try reflexivity. now destruct (Hs s).
Qed.

Lemma X14_witness :
  fst (generateLifeAnalysis (always numeric) sample_input) = Throw TypeError.
Proof.
  apply (X14_content_that_is_not_a_string (always numeric) sample_input
           (after_loop (always numeric) sample_input (lit "secret")
              (lit "https://x/"))
           numeric (JNumber (num 5))
           (always_accepted numeric eq_refl)).
  - vm_compute. reflexivity.
  - discriminate.
Defined.

(* ================================================================= *)
(** ** More on the derived metadata *)

(** X15.  The starting age: a string from which parseInt reads no digit
    gives 1, and one that parses to a positive integer gives that integer,
    a positive Number. *)
Theorem X15_starting_age (input : UserInput) :
  (parseInt_math (startAge input) = None -> startAgeInt input = num 1)
  /\ (forall n, parseInt_math (startAge input) = Some (false, n) -> 0 < n ->
        startAgeInt input = number_of_int false n
        /\ number_truthy (startAgeInt input) = true
        /\ is_negative (startAgeInt input) = false).
Proof.
  unfold startAgeInt, parseInt. split.
  - now intros ->.
  - intros n -> Hn. rewrite (number_of_int_truthy false n Hn).
    split; [reflexivity|]. split; [now apply number_of_int_truthy|].
    destruct (number_of_int_nonzero false n Hn) as [(m & e & ->)| ->];
      reflexivity.
Qed.

Lemma X15_witness :
  startAgeInt (with_startAge (lit "abc")) = num 1
  /\ startAgeInt (with_startAge (lit "8")) = num 8.
Proof.
  split.
  - apply (proj1 (X15_starting_age (with_startAge (lit "abc")))).
    vm_compute. reflexivity.
  - apply (proj1 (proj2 (X15_starting_age (with_startAge (lit "8")))
                    8 eq_refl eq_refl)).
Defined.

Lemma trimStart_app_ws (a b : jsstring) :
  forallb is_js_whitespace a = true -> trimStart (a ++ b) = trimStart b.
Proof.
  induction a as [|c a IH]; cbn [forallb app trimStart]; [reflexivity|].
  intros H. apply andb_true_iff in H as [Hc Ha]. rewrite Hc. now apply IH.
Qed.

Lemma trimStart_app_kept (p b t : jsstring) (c : Z) :
  trimStart p = c :: t -> trimStart (p ++ b) = (c :: t) ++ b.
Proof.
  induction p as [|d p IH]; cbn [trimStart app]; [discriminate|].
  destruct (is_js_whitespace d); [exact IH|]. now intros [= -> ->].
Qed.

Lemma trim_ignores_surrounding_ws (before pillar after : jsstring) :
  forallb is_js_whitespace before = true ->
  forallb is_js_whitespace after = true ->
  trim (before ++ pillar ++ after) = trim pillar.
Proof.
  intros Hb Ha. unfold trim, trimEnd.
  rewrite (trimStart_app_ws before) by assumption.
  destruct (trimStart pillar) as [|c t] eqn:E.
  - apply trimStart_nil_iff in E.
    assert (H : trimStart (pillar ++ after) = []).
    { apply trimStart_nil_iff. rewrite forallb_app, E, Ha. reflexivity. }
    now rewrite H.
  - rewrite (trimStart_app_kept pillar after t c E).
    rewrite rev_app_distr, trimStart_app_ws; [reflexivity|].
    now rewrite forallb_rev.
Qed.

Lemma getStemPolarity_trim (pillar : jsstring) :
  getStemPolarity pillar =
    if array_includes yangStems (charAt (trim pillar) 0) then YANG
    else if array_includes yinStems (charAt (trim pillar) 0) then YIN
    else YANG.
Proof.
  unfold getStemPolarity. destruct pillar as [|c s]; reflexivity.
Qed.

(** X16.  White space around the year pillar never changes its polarity. *)
Theorem X16_polarity_ignores_surrounding_white_space
  (before pillar after : jsstring) :
  forallb is_js_whitespace before = true ->
  forallb is_js_whitespace after = true ->
  getStemPolarity (before ++ pillar ++ after) = getStemPolarity pillar.
Proof.
  intros Hb Ha. rewrite !getStemPolarity_trim.
  now rewrite trim_ignores_surrounding_ws.
Qed.

Lemma X16_witness :
  getStemPolarity (lit "  " ++ lit "乙丑" ++ lit " ") = YIN.
Proof.
  rewrite (X16_polarity_ignores_surrounding_white_space (lit "  ")
             (lit "乙丑") (lit " ")); vm_compute; reflexivity.
Defined.
